(** * MD2slide: the SSRF image-URL validator

    A shallow embedding of
    [packages/backend/src/security/imageUrlValidator.ts] and the
    properties of its address classifier, single-URL validator, redirect
    probe and redirect-chain validator.

    Conventions of the embedding:
    - a JavaScript string is a [string] whose characters are the code
      units U+0000..U+00FF (host names, IP literals and URLs are ASCII);
    - a JavaScript number is a [Z]; [parseInt] is exact here, which agrees
      with JavaScript as long as a field has at most 15 digits (beyond
      2^53 JavaScript rounds to a double);
    - [NaN] is [None];
    - asynchronous code is a program tree [Prog] whose nodes are the calls
      into the platform (DNS lookup, HTTPS request, console) and whose
      leaves are a returned value or a thrown exception. *)

From Stdlib Require Import ZArith List String Ascii Bool Lia Arith.
From Equations Require Import Equations.
Import ListNotations.

Local Open Scope string_scope.
Local Open Scope Z_scope.

(** ** The JavaScript primitives the validator uses *)

Module JS.

Definition code (c : ascii) : Z := Z.of_N (N_of_ascii c).

(** [\d] and the digits [parseInt] accepts in radix 10. *)
Definition isDigit (c : ascii) : bool := (48 <=? code c) && (code c <=? 57).

(** [[0-9a-fA-F]]. *)
Definition isHexDigit (c : ascii) : bool :=
  isDigit c
  || ((97 <=? code c) && (code c <=? 102))
  || ((65 <=? code c) && (code c <=? 70)).

(** White space and line terminators below U+0100: TAB, LF, VT, FF, CR,
    SP and NBSP. [String.prototype.trim] and [parseInt] strip these. *)
Definition isWhiteSpace (c : ascii) : bool :=
  ((9 <=? code c) && (code c <=? 13)) || (code c =? 32) || (code c =? 160).

(** [toLowerCase] on one code unit below U+0100: the letters A-Z and the
    Latin-1 capitals U+00C0..U+00DE (U+00D7, the multiplication sign, is
    not a letter). *)
Definition toLowerChar (c : ascii) : ascii :=
  if ((65 <=? code c) && (code c <=? 90))
     || ((192 <=? code c) && (code c <=? 222) && negb (code c =? 215))
  then ascii_of_N (N_of_ascii c + 32)
  else c.

Fixpoint toLowerCase (s : string) : string :=
  match s with
  | EmptyString => EmptyString
  | String c r => String (toLowerChar c) (toLowerCase r)
  end.

Fixpoint startsWith (s p : string) {struct p} : bool :=
  match p, s with
  | EmptyString, _ => true
  | String _ _, EmptyString => false
  | String a p', String b s' => Ascii.eqb a b && startsWith s' p'
  end.

Fixpoint includes (s p : string) : bool :=
  startsWith s p
  || match s with
     | EmptyString => false
     | String _ r => includes r p
     end.

Fixpoint includesChar (s : string) (c : ascii) : bool :=
  match s with
  | EmptyString => false
  | String a r => Ascii.eqb a c || includesChar r c
  end.

Definition endsWith (s p : string) : bool :=
  let n := String.length s in
  let m := String.length p in
  (m <=? n)%nat && String.eqb (substring (n - m) m s) p.

(** [s.split(sep)] for a one-character separator: never an empty
    array; the empty string gives one empty field. *)
Fixpoint split (sep : ascii) (s : string) : list string :=
  match s with
  | EmptyString => [EmptyString]
  | String c r =>
      if Ascii.eqb c sep then EmptyString :: split sep r
      else match split sep r with
           | [] => [String c EmptyString]
           | f :: fs => String c f :: fs
           end
  end.

Fixpoint trimStart (s : string) : string :=
  match s with
  | EmptyString => EmptyString
  | String c r => if isWhiteSpace c then trimStart r else s
  end.

Fixpoint trimEnd (s : string) : string :=
  match s with
  | EmptyString => EmptyString
  | String c r =>
      match trimEnd r with
      | EmptyString => if isWhiteSpace c then EmptyString else String c EmptyString
      | r' => String c r'
      end
  end.

Definition trim (s : string) : string := trimEnd (trimStart s).

(** The value of the longest prefix of decimal digits. *)
Fixpoint digitsValue (acc : Z) (s : string) : Z :=
  match s with
  | EmptyString => acc
  | String c r => if isDigit c then digitsValue (10 * acc + (code c - 48)) r else acc
  end.

(** [parseInt(s, 10)]: skip leading white space, read an optional sign,
    then the longest run of digits; [NaN] when there is no digit. *)
Definition parseInt10 (s : string) : option Z :=
  let s1 := trimStart s in
  let '(sign, s2) :=
    match s1 with
    | String "-" r => (-1, r)
    | String "+" r => (1, r)
    | _ => (1, s1)
    end in
  match s2 with
  | String c _ => if isDigit c then Some (sign * digitsValue 0 s2) else None
  | EmptyString => None
  end.

(** [ToInt32]: reduce modulo 2^32 into [-2^31, 2^31). *)
Definition toInt32 (z : Z) : Z := (z + 2 ^ 31) mod 2 ^ 32 - 2 ^ 31.

(** [x << n] on numbers: both operands go through 32-bit conversion,
    the count is taken modulo 32 and the result is a signed 32-bit
    integer. *)
Definition shl (x n : Z) : Z := toInt32 (Z.shiftl (toInt32 x) (n mod 32)).

End JS.

(** ** Constants and tables *)

Definition MAX_REDIRECTS : nat := 3.
Definition REQUEST_TIMEOUT : Z := 5000.
Definition MAX_URL_LENGTH : nat := 2048.

Record IpRange := { range_start : string; range_end : string }.

Definition BLOCKED_IP_RANGES : list IpRange :=
  [ {| range_start := "127.0.0.0";       range_end := "127.255.255.255" |};
    {| range_start := "10.0.0.0";        range_end := "10.255.255.255" |};
    {| range_start := "172.16.0.0";      range_end := "172.31.255.255" |};
    {| range_start := "192.168.0.0";     range_end := "192.168.255.255" |};
    {| range_start := "169.254.0.0";     range_end := "169.254.255.255" |};
    {| range_start := "169.254.169.254"; range_end := "169.254.169.254" |};
    {| range_start := "0.0.0.0";         range_end := "0.255.255.255" |};
    {| range_start := "100.64.0.0";      range_end := "100.127.255.255" |};
    {| range_start := "192.0.0.0";       range_end := "192.0.0.255" |};
    {| range_start := "192.0.2.0";       range_end := "192.0.2.255" |};
    {| range_start := "198.51.100.0";    range_end := "198.51.100.255" |};
    {| range_start := "203.0.113.0";     range_end := "203.0.113.255" |};
    {| range_start := "198.18.0.0";      range_end := "198.19.255.255" |};
    {| range_start := "224.0.0.0";       range_end := "239.255.255.255" |};
    {| range_start := "240.0.0.0";       range_end := "255.255.255.255" |} ].

(** ** AddressClassifier: IPv4 *)

(** [ip.split('.').map(p => parseInt(p, 10))]. *)
Definition ipParts (ip : string) : list (option Z) :=
  map JS.parseInt10 (JS.split "." ip).

(** [ipToNumber]: [-1] unless there are exactly four fields, none of them
    [NaN]; otherwise the sum of the shifted fields. *)
Definition ipToNumber (ip : string) : Z :=
  match ipParts ip with
  | [Some p0; Some p1; Some p2; Some p3] =>
      JS.shl p0 24 + JS.shl p1 16 + JS.shl p2 8 + p3
  | _ => -1
  end.

(** The [for (const range of ...)] loop of [isBlockedIP]. *)
Fixpoint inSomeRange (ipNum : Z) (ranges : list IpRange) : bool :=
  match ranges with
  | [] => false
  | range :: rest =>
      let startNum := ipToNumber (range_start range) in
      let endNum := ipToNumber (range_end range) in
      if (startNum <=? ipNum) && (ipNum <=? endNum) then true
      else inSomeRange ipNum rest
  end.

Definition isBlockedIP (ip : string) : bool :=
  let ipNum := ipToNumber ip in
  if ipNum <? 0 then true
  else inSomeRange ipNum BLOCKED_IP_RANGES.


(** ** HostnameClassifier *)

(** The entries of [BLOCKED_HOSTNAME_PATTERNS] have two shapes:
    [/^name$/i] and [/\.suffix$/i]. *)
Inductive HostPattern :=
| Exact (name : string)
| Suffix (dotted : string).

Definition BLOCKED_HOSTNAME_PATTERNS : list HostPattern :=
  [ Exact "localhost"; Suffix ".local"; Suffix ".internal";
    Suffix ".localdomain"; Suffix ".localhost"; Exact "local"; Exact "host";
    Suffix ".home"; Suffix ".lan"; Suffix ".intranet"; Suffix ".corp";
    Suffix ".private"; Exact "ip6-localhost"; Exact "ip6-loopback";
    Suffix ".ip6.allhosts"; Suffix ".ip6.allnodes"; Suffix ".ip6.allrouters";
    Suffix ".ip6.local";
    Suffix ".kubernetes.default"; Suffix ".kubernetes.default.svc";
    Suffix ".svc.cluster.local";
    Suffix ".docker.internal";
    Suffix ".metadata"; Suffix ".metadata.google";
    Suffix ".metadata.google.internal" ].

(** [pattern.test(s)] with the [i] flag. *)
Definition pattern_test (p : HostPattern) (s : string) : bool :=
  match p with
  | Exact name => String.eqb (JS.toLowerCase s) name
  | Suffix dotted => JS.endsWith (JS.toLowerCase s) dotted
  end.

Fixpoint anyPattern (ps : list HostPattern) (s : string) : bool :=
  match ps with
  | [] => false
  | p :: rest => if pattern_test p s then true else anyPattern rest s
  end.

Definition isBlockedHostname (hostname : string) : bool :=
  let normalizedHostname := JS.toLowerCase hostname in
  anyPattern BLOCKED_HOSTNAME_PATTERNS normalizedHostname.

(** ** Recognising IP literals *)

Fixpoint allChars (p : ascii -> bool) (s : string) : bool :=
  match s with
  | EmptyString => true
  | String c r => p c && allChars p r
  end.

(** [\d{1,3}] against a whole field. *)
Definition isDigits1to3 (f : string) : bool :=
  (1 <=? String.length f)%nat && (String.length f <=? 3)%nat
  && allChars JS.isDigit f.

(** [/^(\d{1,3}\.){3}\d{1,3}$/]: a digit is never a dot, so the pattern
    matches exactly the strings whose four dot-separated fields are one
    to three digits each. *)
Definition ipv4Pattern (s : string) : bool :=
  match JS.split "." s with
  | [a; b; c; d] => isDigits1to3 a && isDigits1to3 b && isDigits1to3 c && isDigits1to3 d
  | _ => false
  end.

(** [[0-9a-fA-F]{0,4}] against a whole field. *)
Definition isHex0to4 (f : string) : bool :=
  (String.length f <=? 4)%nat && allChars JS.isHexDigit f.

(** [/^([0-9a-fA-F]{0,4}:){2,7}[0-9a-fA-F]{0,4}$/]: two to seven colons,
    every colon-separated field at most four hexadecimal digits. *)
Definition ipv6Pattern (s : string) : bool :=
  let fields := JS.split ":" s in
  (3 <=? List.length fields)%nat && (List.length fields <=? 8)%nat
  && forallb isHex0to4 fields.

(** [[0-9a-fA-F:]]. *)
Definition isHexOrColon (c : ascii) : bool :=
  JS.isHexDigit c || Ascii.eqb c ":".

(** [[0-9a-fA-F:]+] against a whole string. *)
Definition hexColonPlus (s : string) : bool :=
  negb (String.eqb s EmptyString) && allChars isHexOrColon s.

(** [^[0-9a-fA-F:]+::[0-9a-fA-F:]+$] tried at every split point: [seen]
    says that a non-empty run of class characters has been read. *)
Fixpoint aroundDoubleColon (seen : bool) (s : string) : bool :=
  (seen && JS.startsWith s "::" && hexColonPlus (substring 2 (String.length s - 2) s))
  || match s with
     | EmptyString => false
     | String c r => isHexOrColon c && aroundDoubleColon true r
     end.

(** [/^::$|^::[0-9a-fA-F:]+$|^[0-9a-fA-F:]+::$|^[0-9a-fA-F:]+::[0-9a-fA-F:]+$/]. *)
Definition ipv6ShorthandPattern (s : string) : bool :=
  let n := String.length s in
  String.eqb s "::"
  || (JS.startsWith s "::" && hexColonPlus (substring 2 (n - 2) s))
  || (JS.endsWith s "::" && hexColonPlus (substring 0 (n - 2) s))
  || aroundDoubleColon false s.

Definition inByteRange (p : option Z) : bool :=
  match p with
  | Some v => (0 <=? v) && (v <=? 255)
  | None => false
  end.

Definition isIPAddress (str : string) : bool :=
  if ipv4Pattern str then forallb inByteRange (ipParts str)
  else if ipv6Pattern str then true
  else if ipv6ShorthandPattern str then true
  else false.

(** ** AddressClassifier: IPv6 *)

(** [/:ffff:(\d{1,3}\.\d{1,3}\.\d{1,3}\.\d{1,3})$/] tried at the current
    position: the text after [:ffff:] has to be a dotted quad up to the
    end of the string; the capture group is that quad. *)
Definition mappedQuadHere (s : string) : option string :=
  if JS.startsWith s ":ffff:" then
    let quad := substring 6 (String.length s - 6) s in
    if ipv4Pattern quad then Some quad else None
  else None.

(** [s.match(re)] for that pattern: the leftmost position where it
    matches, [None] for [null]. *)
Fixpoint matchMappedQuad (s : string) : option string :=
  match mappedQuadHere s with
  | Some quad => Some quad
  | None =>
      match s with
      | EmptyString => None
      | String _ r => matchMappedQuad r
      end
  end.

Definition isBlockedIPv6 (ip : string) : bool :=
  let normalizedIP := JS.toLowerCase ip in
  if String.eqb normalizedIP "::1" || String.eqb normalizedIP "0:0:0:0:0:0:0:1" then true
  else if String.eqb normalizedIP "::" || String.eqb normalizedIP "0:0:0:0:0:0:0:0" then true
  else if JS.startsWith normalizedIP "fe80:" || JS.startsWith normalizedIP "fe8"
          || JS.startsWith normalizedIP "fe9" || JS.startsWith normalizedIP "fea"
          || JS.startsWith normalizedIP "feb" then true
  else if JS.startsWith normalizedIP "fc" || JS.startsWith normalizedIP "fd" then true
  else if JS.startsWith normalizedIP "ff" then true
  else if JS.includes normalizedIP ":ffff:" then
    match matchMappedQuad normalizedIP with
    | Some quad => if isBlockedIP quad then true else false
    | None => false
    end
  else false.

(** ** Results, exceptions and the platform *)

Record ImageValidationResult := { valid : bool; error : option string }.

Definition accept : ImageValidationResult := {| valid := true; error := None |}.
Definition reject (msg : string) : ImageValidationResult :=
  {| valid := false; error := Some msg |}.

(** A thrown value: an [Error] object with its message, or anything
    else. *)
Inductive Exception :=
| JsError (message : string)
| NonError.

(** The fields of a WHATWG [URL] object that the validator reads. *)
Record URL := {
  protocol : string;
  hostname : string;
  port : string;
  pathname : string;
  search : string;
  href : string }.

(** The URL parser of the runtime, which is not part of the repository:
    [new URL(input)] and [new URL(input, base)], [None] when the
    constructor throws. *)
Record UrlParser := {
  newURL : string -> option URL;
  newURLWithBase : string -> string -> option URL }.

(** One entry of the array [dns.lookup(host, {all: true})] yields. *)
Record LookupAddress := { address : string; family : Z }.

Inductive LookupOutcome :=
| LookupResolved (result : list LookupAddress)
| LookupRejected (e : Exception).

(** [parsedUrl.port || 443]. *)
Inductive Port :=
| PortText (p : string)
| PortNumber (n : Z).

Record RequestOptions := {
  opt_hostname : string;
  opt_port : Port;
  opt_path : string;
  opt_method : string;
  opt_timeout : Z;
  opt_userAgent : string }.

(** What [https.request(options, cb)] followed by [req.end()] does first:
    the response callback runs (with [res.statusCode] and
    [res.headers.location], either of which may be [undefined]), the
    ['error'] event fires, the ['timeout'] event fires, or the call itself
    throws. *)
Inductive RequestOutcome :=
| ResponseEvent (statusCode : option Z) (location : option string)
| ErrorEvent
| TimeoutEvent
| RequestThrows (e : Exception).

(** ** Programs over the platform *)

Inductive Prog (A : Type) : Type :=
| Ret (a : A)
| Throw (e : Exception)
| DnsLookup (host : string) (all : bool) (k : LookupOutcome -> Prog A)
| HttpsRequest (options : RequestOptions) (k : RequestOutcome -> Prog A)
| ReqDestroy (k : Prog A)
| ConsoleError (args : list string) (k : Prog A).

Arguments Ret {A} a.
Arguments Throw {A} e.
Arguments DnsLookup {A} host all k.
Arguments HttpsRequest {A} options k.
Arguments ReqDestroy {A} k.
Arguments ConsoleError {A} args k.

Fixpoint bind {A B : Type} (p : Prog A) (f : A -> Prog B) : Prog B :=
  match p with
  | Ret a => f a
  | Throw e => Throw e
  | DnsLookup host all k => DnsLookup host all (fun o => bind (k o) f)
  | HttpsRequest options k => HttpsRequest options (fun o => bind (k o) f)
  | ReqDestroy k => ReqDestroy (bind k f)
  | ConsoleError args k => ConsoleError args (bind k f)
  end.

(** [try { p } catch (e) { h e }]. *)
Fixpoint tryCatch {A : Type} (p : Prog A) (h : Exception -> Prog A) : Prog A :=
  match p with
  | Ret a => Ret a
  | Throw e => h e
  | DnsLookup host all k => DnsLookup host all (fun o => tryCatch (k o) h)
  | HttpsRequest options k => HttpsRequest options (fun o => tryCatch (k o) h)
  | ReqDestroy k => ReqDestroy (tryCatch k h)
  | ConsoleError args k => ConsoleError args (tryCatch k h)
  end.

Declare Scope prog_scope.
Delimit Scope prog_scope with prog.
Notation "'let*' x ':=' p 'in' q" := (bind p (fun x => q))
  (at level 10, x name, p at level 100, q at level 200, only parsing) : prog_scope.
Local Open Scope prog_scope.

(** [Promise.all]: the results in the order of the array; a rejection of
    any element rejects the whole. At run time the platform calls of the
    elements interleave; the elements share no state and a [Network]
    (below) answers a request by the request alone, so the order of the
    calls has no bearing on any result and the elements are run one after
    the other here. *)
Fixpoint promiseAll {A : Type} (ps : list (Prog A)) : Prog (list A) :=
  match ps with
  | [] => Ret []
  | p :: rest =>
      let* v := p in
      let* vs := promiseAll rest in
      Ret (v :: vs)
  end.

(** ** Running a program against a network *)

(** The answers of the outside world; a function of the request. *)
Record Network := {
  dnsLookup : string -> LookupOutcome;
  httpsRequest : RequestOptions -> RequestOutcome }.

Inductive Event :=
| EvLookup (host : string) (all : bool)
| EvRequest (options : RequestOptions)
| EvDestroy
| EvConsoleError (args : list string).

Inductive Outcome (A : Type) : Type :=
| Fulfilled (a : A)
| Rejects (e : Exception).

Arguments Fulfilled {A} a.
Arguments Rejects {A} e.

(** The outcome of a program and the platform calls it made, in order. *)
Fixpoint run {A : Type} (net : Network) (p : Prog A) : Outcome A * list Event :=
  match p with
  | Ret a => (Fulfilled a, [])
  | Throw e => (Rejects e, [])
  | DnsLookup host all k =>
      let '(o, t) := run net (k (dnsLookup net host)) in (o, EvLookup host all :: t)
  | HttpsRequest options k =>
      let '(o, t) := run net (k (httpsRequest net options)) in (o, EvRequest options :: t)
  | ReqDestroy k =>
      let '(o, t) := run net k in (o, EvDestroy :: t)
  | ConsoleError args k =>
      let '(o, t) := run net k in (o, EvConsoleError args :: t)
  end.

Definition outcome {A : Type} (net : Network) (p : Prog A) : Outcome A :=
  fst (run net p).

Definition trace {A : Type} (net : Network) (p : Prog A) : list Event :=
  snd (run net p).

(** ** The validator *)

Section Validator.

Variable U : UrlParser.

(** *** Resolver *)

Definition resolveHostname (hostname : string) : Prog (list string) :=
  tryCatch
    (DnsLookup hostname true (fun o =>
       match o with
       | LookupResolved result => Ret (map address result)
       | LookupRejected e => Throw e
       end))
    (fun _ => Throw (JsError ("Failed to resolve hostname: " ++ hostname))).

(** *** SingleURLValidator *)

(** The loop over the resolved addresses: the first blocked one ends
    it. *)
Fixpoint checkResolved (ips : list string) : ImageValidationResult :=
  match ips with
  | [] => accept
  | ip :: rest =>
      if JS.includesChar ip ":" then
        if isBlockedIPv6 ip then reject "Resolved IP address is not allowed"
        else checkResolved rest
      else
        if isBlockedIP ip then reject "Resolved IP address is not allowed"
        else checkResolved rest
  end.

Definition validateSingleUrl (urlString : string) : Prog ImageValidationResult :=
  if (MAX_URL_LENGTH <? String.length urlString)%nat then
    Ret (reject "URL exceeds maximum length")
  else
    match newURL U urlString with
    | None => Ret (reject "Invalid URL format")
    | Some parsedUrl =>
        if negb (String.eqb (protocol parsedUrl) "https:") then
          Ret (reject "Only HTTPS protocol is allowed for image URLs")
        else
          let hostname := hostname parsedUrl in
          if isBlockedHostname hostname then
            Ret (reject "Hostname is not allowed")
          else if isIPAddress hostname then
            if JS.includesChar hostname ":" then
              if isBlockedIPv6 hostname then Ret (reject "IP address is not allowed")
              else Ret accept
            else
              if isBlockedIP hostname then Ret (reject "IP address is not allowed")
              else Ret accept
          else
            let* resolved :=
              tryCatch
                (let* ips := resolveHostname hostname in Ret (inl ips))
                (fun _ => Ret (inr (reject "Failed to resolve hostname"))) in
            match resolved with
            | inr failure => Ret failure
            | inl ips => Ret (checkResolved ips)
            end
    end.

(** *** RedirectProbe *)

Record RedirectResult := { hasRedirect : bool; redirectUrl : option string }.

Definition noRedirect : RedirectResult :=
  {| hasRedirect := false; redirectUrl := None |}.

(** Truthiness of a [string | undefined]. *)
Definition truthy (v : option string) : bool :=
  match v with
  | Some s => negb (String.eqb s EmptyString)
  | None => false
  end.

Definition requestOptions (parsedUrl : URL) : RequestOptions :=
  {| opt_hostname := hostname parsedUrl;
     opt_port := if String.eqb (port parsedUrl) EmptyString then PortNumber 443
                 else PortText (port parsedUrl);
     opt_path := pathname parsedUrl ++ search parsedUrl;
     opt_method := "HEAD";
     opt_timeout := REQUEST_TIMEOUT;
     opt_userAgent := "MD2Slide-ImageValidator/1.0" |}.

(** The promise rejects when the executor throws, which is the case
    when [urlString] does not parse or the request call throws. *)
Definition checkForRedirect (urlString : string) : Prog RedirectResult :=
  match newURL U urlString with
  | None => Throw (JsError "Invalid URL")
  | Some parsedUrl =>
      HttpsRequest (requestOptions parsedUrl) (fun o =>
        match o with
        | ResponseEvent status location =>
            let statusCode :=
              match status with
              | Some c => c
              | None => 0
              end in
            if (300 <=? statusCode) && (statusCode <? 400) && truthy location then
              match newURLWithBase U (match location with Some l => l | None => EmptyString end) urlString with
              | Some target =>
                  Ret {| hasRedirect := true; redirectUrl := Some (href target) |}
              | None => Ret noRedirect
              end
            else Ret noRedirect
        | ErrorEvent => Ret noRedirect
        | TimeoutEvent => ReqDestroy (Ret noRedirect)
        | RequestThrows e => Throw e
        end)
  end.

(** *** ChainValidator *)

(** [Set<string>]: the elements in insertion order. *)
Definition Set_has (s : list string) (x : string) : bool :=
  existsb (String.eqb x) s.

Definition Set_add (s : list string) (x : string) : list string :=
  if Set_has s x then s else s ++ [x].

(** [redirectCount === 0 || redirectCount < MAX_REDIRECTS]. *)
Definition mayProbe (redirectCount : nat) :
  {redirectCount = 0%nat \/ (redirectCount < MAX_REDIRECTS)%nat}
  + {~ (redirectCount = 0%nat \/ (redirectCount < MAX_REDIRECTS)%nat)}.
Proof.
  destruct (Nat.eq_dec redirectCount 0) as [E | E].
  - left; left; exact E.
  - destruct (lt_dec redirectCount MAX_REDIRECTS) as [L | L].
    + left; right; exact L.
    + right; intros [H | H]; [exact (E H) | exact (L H)].
Defined.

Equations? followAndValidateRedirects
  (urlString : string) (redirectCount : nat) (visitedUrls : list string)
  : Prog ImageValidationResult by wf (MAX_REDIRECTS - redirectCount)%nat lt :=
followAndValidateRedirects urlString redirectCount visitedUrls :=
  if (MAX_REDIRECTS <? redirectCount)%nat then Ret (reject "Too many redirects")
  else if Set_has visitedUrls urlString then Ret (reject "Redirect loop detected")
  else
    let visitedUrls := Set_add visitedUrls urlString in
    let* urlValidation := validateSingleUrl urlString in
    if negb (valid urlValidation) then
      Ret {| valid := false; error := error urlValidation |}
    else
      match mayProbe redirectCount with
      | left _ =>
          let* redirectResult := checkForRedirect urlString in
          match hasRedirect redirectResult && truthy (redirectUrl redirectResult),
                redirectUrl redirectResult with
          | true, Some target =>
              followAndValidateRedirects target (S redirectCount) visitedUrls
          | _, _ => Ret accept
          end
      | right _ => Ret accept
      end.
Proof. unfold MAX_REDIRECTS in *. destruct redirectCount as [| [| [| n]]]; lia. Qed.

(** *** ImageURLValidator (entry point) *)

(** The argument as JavaScript sees it at run time. *)
Inductive JsValue :=
| JsNull
| JsUndefined
| JsString (s : string)
| JsOther.

(** [/[\x00-\x1F\x7F]/]. *)
Definition isControl (c : ascii) : bool :=
  (JS.code c <=? 31) || (JS.code c =? 127).

Fixpoint anyChar (p : ascii -> bool) (s : string) : bool :=
  match s with
  | EmptyString => false
  | String c r => p c || anyChar p r
  end.

(** [[^/]*\/\/] at the current position: all the characters up to the
    first slash, then two slashes. *)
Fixpoint slashSlashAfterAuthority (s : string) : bool :=
  match s with
  | EmptyString => false
  | String c r =>
      if Ascii.eqb c "/" then JS.startsWith s "//"
      else slashSlashAfterAuthority r
  end.

(** [/^https?:\/\/[^/]*\/\//]. *)
Definition doubleSlashPattern (s : string) : bool :=
  if JS.startsWith s "https://" then
    slashSlashAfterAuthority (substring 8 (String.length s - 8) s)
  else if JS.startsWith s "http://" then
    slashSlashAfterAuthority (substring 7 (String.length s - 7) s)
  else false.

Definition validateImageUrl (url : JsValue) : Prog ImageValidationResult :=
  match url with
  | JsNull | JsUndefined => Ret (reject "Image URL is required")
  | JsOther => Ret (reject "Image URL must be a string")
  | JsString url =>
      let trimmedUrl := JS.trim url in
      if (String.length trimmedUrl =? 0)%nat then
        Ret (reject "Image URL cannot be empty")
      else if anyChar isControl trimmedUrl then
        Ret (reject "Image URL contains invalid characters")
      else if JS.includes trimmedUrl "%40" then Ret (reject "Invalid URL format")
      else if JS.includes trimmedUrl "\" then Ret (reject "Invalid URL format")
      else if doubleSlashPattern trimmedUrl then Ret (reject "Invalid URL format")
      else
        tryCatch
          (followAndValidateRedirects trimmedUrl 0 [])
          (fun e =>
             let errorMessage :=
               match e with
               | JsError message => message
               | NonError => "Unknown validation error"
               end in
             ConsoleError ["[ImageURLValidator] Validation error:"; errorMessage]
               (Ret (reject "Failed to validate image URL")))
  end.

Definition validateImageUrls (urls : list string) : Prog (list ImageValidationResult) :=
  promiseAll (map (fun url => validateImageUrl (JsString url)) urls).

End Validator.

(** ** What the specification lists for IPv4 *)

(** An IPv4 address as the unsigned 32-bit number of its four octets. *)
Definition quadNumber (a b c d : Z) : Z :=
  a * 2 ^ 24 + b * 2 ^ 16 + c * 2 ^ 8 + d.

Record Cidr := { cidr_base : Z; cidr_len : Z }.

Definition inCidr (n : Z) (r : Cidr) : bool :=
  Z.shiftr n (32 - cidr_len r) =? Z.shiftr (cidr_base r) (32 - cidr_len r).

(** The blocked ranges as the specification names them: loopback, the
    three private ranges, link-local, "this network", carrier-grade NAT,
    the IANA special-purpose block, the three TEST-NETs, benchmarking,
    multicast and reserved. *)
Definition SPEC_BLOCKED_CIDRS : list Cidr :=
  [ {| cidr_base := quadNumber 127 0 0 0;    cidr_len := 8 |};
    {| cidr_base := quadNumber 10 0 0 0;     cidr_len := 8 |};
    {| cidr_base := quadNumber 172 16 0 0;   cidr_len := 12 |};
    {| cidr_base := quadNumber 192 168 0 0;  cidr_len := 16 |};
    {| cidr_base := quadNumber 169 254 0 0;  cidr_len := 16 |};
    {| cidr_base := quadNumber 0 0 0 0;      cidr_len := 8 |};
    {| cidr_base := quadNumber 100 64 0 0;   cidr_len := 10 |};
    {| cidr_base := quadNumber 192 0 0 0;    cidr_len := 24 |};
    {| cidr_base := quadNumber 192 0 2 0;    cidr_len := 24 |};
    {| cidr_base := quadNumber 198 51 100 0; cidr_len := 24 |};
    {| cidr_base := quadNumber 203 0 113 0;  cidr_len := 24 |};
    {| cidr_base := quadNumber 198 18 0 0;   cidr_len := 15 |};
    {| cidr_base := quadNumber 224 0 0 0;    cidr_len := 4 |};
    {| cidr_base := quadNumber 240 0 0 0;    cidr_len := 4 |} ].

Definition specListedIPv4 (a b c d : Z) : bool :=
  existsb (inCidr (quadNumber a b c d)) SPEC_BLOCKED_CIDRS.

(** The fields of a well-formed dotted quad: four decimal fields, each in
    0..255. *)
Definition wellFormedQuad (ip : string) (a b c d : Z) : Prop :=
  ipParts ip = [Some a; Some b; Some c; Some d]
  /\ 0 <= a <= 255 /\ 0 <= b <= 255 /\ 0 <= c <= 255 /\ 0 <= d <= 255.

(** ** What the specification lists for IPv6 *)

Definition hexValue (c : ascii) : option Z :=
  if JS.isDigit c then Some (JS.code c - 48)
  else if (97 <=? JS.code c) && (JS.code c <=? 102) then Some (JS.code c - 87)
  else if (65 <=? JS.code c) && (JS.code c <=? 70) then Some (JS.code c - 55)
  else None.

(** The hexadecimal number written before the first colon, of at most
    [n] digits. *)
Fixpoint hexGroup (acc : Z) (n : nat) (s : string) {struct s} : option Z :=
  match s with
  | EmptyString => None
  | String c r =>
      if Ascii.eqb c ":" then Some acc
      else match n, hexValue c with
           | S n', Some d => hexGroup (16 * acc + d) n' r
           | _, _ => None
           end
  end.

(** The first 16-bit group of an IPv6 literal in text form. *)
Definition firstGroup (ip : string) : option Z := hexGroup 0 4 ip.

(** The addresses the specification names as blocked: a prefix of [len]
    bits is a condition on the first group. *)
Definition groupInPrefix (g base len : Z) : Prop :=
  Z.shiftr g (16 - len) = Z.shiftr base (16 - len).

Inductive SpecBlockedIPv6 : string -> Prop :=
| blocked_loopback : SpecBlockedIPv6 "::1"
| blocked_unspecified : SpecBlockedIPv6 "::"
| blocked_link_local ip g :
    firstGroup ip = Some g -> groupInPrefix g 0xfe80 10 -> SpecBlockedIPv6 ip
| blocked_unique_local ip g :
    firstGroup ip = Some g -> groupInPrefix g 0xfc00 7 -> SpecBlockedIPv6 ip
| blocked_multicast ip g :
    firstGroup ip = Some g -> groupInPrefix g 0xff00 8 -> SpecBlockedIPv6 ip
| blocked_mapped ip quad :
    JS.toLowerCase ip = "::ffff:" ++ quad ->
    ipv4Pattern quad = true -> isBlockedIP quad = true -> SpecBlockedIPv6 ip.

(** The tests of [isBlockedIPv6] that come before the IPv4-mapped one. *)
Definition prefixRules (ip : string) : bool :=
  let normalizedIP := JS.toLowerCase ip in
  String.eqb normalizedIP "::1" || String.eqb normalizedIP "0:0:0:0:0:0:0:1"
  || String.eqb normalizedIP "::" || String.eqb normalizedIP "0:0:0:0:0:0:0:0"
  || JS.startsWith normalizedIP "fe80:" || JS.startsWith normalizedIP "fe8"
  || JS.startsWith normalizedIP "fe9" || JS.startsWith normalizedIP "fea"
  || JS.startsWith normalizedIP "feb"
  || JS.startsWith normalizedIP "fc" || JS.startsWith normalizedIP "fd"
  || JS.startsWith normalizedIP "ff".

(** The lower-case hexadecimal digit of a value in 0..15. *)
Definition lowerHex (d : Z) : ascii :=
  if d <? 10 then ascii_of_N (Z.to_N (d + 48)) else ascii_of_N (Z.to_N (d + 87)).

(** ** Notions the properties are stated with *)

(** The test the validator applies to one address, by family: a colon
    makes it IPv6. *)
Definition isBlockedAddress (ip : string) : bool :=
  if JS.includesChar ip ":" then isBlockedIPv6 ip else isBlockedIP ip.

(** The input passes the checks [validateImageUrl] makes on the text
    before it starts on the redirect chain. *)
Definition passesPreValidation (url : string) : bool :=
  let trimmedUrl := JS.trim url in
  negb (String.length trimmedUrl =? 0)%nat
  && negb (anyChar isControl trimmedUrl)
  && negb (JS.includes trimmedUrl "%40")
  && negb (JS.includes trimmedUrl "\")
  && negb (doubleSlashPattern trimmedUrl).

(** The steps of [validateSingleUrl] that come before the host is looked
    at as an address: length, parse, protocol, host name patterns. *)
Definition reachesAddressCheck (U : UrlParser) (urlString : string) (parsedUrl : URL) : Prop :=
  (String.length urlString <= MAX_URL_LENGTH)%nat
  /\ newURL U urlString = Some parsedUrl
  /\ protocol parsedUrl = "https:"
  /\ isBlockedHostname (hostname parsedUrl) = false.

(** A response that counts as a redirect to [target]: a status in
    300..399 and a [Location] value, not empty, that resolves against the
    probed URL. *)
Inductive RedirectResponse (U : UrlParser) (urlString : string) :
  RequestOutcome -> string -> Prop :=
| redirect_response status location resolved :
    300 <= status <= 399 ->
    location <> EmptyString ->
    newURLWithBase U location urlString = Some resolved ->
    RedirectResponse U urlString
      (ResponseEvent (Some status) (Some location)) (href resolved).

Section Chains.

Variable U : UrlParser.
Variable net : Network.

(** On this network [u] passes single-URL validation. *)
Definition validates (u : string) : Prop :=
  outcome net (validateSingleUrl U u) = Fulfilled accept.

(** On this network the probe of [u] reports a redirect to [v]. *)
Definition redirectsTo (u v : string) : Prop :=
  v <> EmptyString
  /\ outcome net (checkForRedirect U u) =
       Fulfilled {| hasRedirect := true; redirectUrl := Some v |}.

(** [u0 -> u1 -> ... -> uk]: every URL validates and redirects to the
    next one. *)
Fixpoint redirectChain (u : string) (rest : list string) : Prop :=
  match rest with
  | [] => True
  | v :: rest' => validates u /\ redirectsTo u v /\ redirectChain v rest'
  end.

End Chains.

(** ** Scenarios

    A small URL parser and a few networks to run the validator on. The
    parser stands in for the runtime's on URLs of the plain form
    [scheme://host/path] (no port, query, credentials or escapes), where
    it reads the same fields; like the runtime's, it keeps the brackets
    of an IPv6 host. With a base it resolves an absolute URL or a path
    that begins with a slash. *)

Module Scenario.

(** The text before the first [c], and the text from that [c] on. *)
Fixpoint breakAt (c : ascii) (s : string) : string * string :=
  match s with
  | EmptyString => (EmptyString, EmptyString)
  | String a r =>
      if Ascii.eqb a c then (EmptyString, s)
      else let '(before, from) := breakAt c r in (String a before, from)
  end.

Definition parsePlain (input : string) : option URL :=
  let '(scheme, rest) := breakAt ":" input in
  if negb (String.eqb scheme EmptyString) && JS.startsWith rest "://" then
    let '(host, path) := breakAt "/" (substring 3 (String.length rest - 3) rest) in
    if String.eqb host EmptyString then None
    else
      let path := if String.eqb path EmptyString then "/" else path in
      Some {| protocol := scheme ++ ":";
              hostname := host;
              port := EmptyString;
              pathname := path;
              search := EmptyString;
              href := scheme ++ "://" ++ host ++ path |}
  else None.

Definition parsePlainWithBase (input base : string) : option URL :=
  match parsePlain input with
  | Some u => Some u
  | None =>
      if JS.startsWith input "/" then
        match parsePlain base with
        | Some b => parsePlain (protocol b ++ "//" ++ hostname b ++ input)
        | None => None
        end
      else None
  end.

Definition plainParser : UrlParser :=
  {| newURL := parsePlain; newURLWithBase := parsePlainWithBase |}.

Fixpoint assoc (key : string) (table : list (string * string)) : option string :=
  match table with
  | [] => None
  | (k, v) :: rest => if String.eqb k key then Some v else assoc key rest
  end.

Definition publicAddress : list LookupAddress :=
  [ {| address := "93.184.216.34"; family := 4 |} ].

(** Every name resolves to a public address; a request for
    [host ++ path] found in [table] is answered [302] with that
    location, any other request [200]. *)
Definition redirecting (table : list (string * string)) : Network :=
  {| dnsLookup := fun _ => LookupResolved publicAddress;
     httpsRequest := fun o =>
       match assoc (opt_hostname o ++ opt_path o) table with
       | Some location => ResponseEvent (Some 302) (Some location)
       | None => ResponseEvent (Some 200) None
       end |}.

(** Four redirects in a row: /0 -> /1 -> /2 -> /3 -> /4. *)
Definition fourRedirects : Network :=
  redirecting
    [ ("a.example/0", "https://a.example/1");
      ("a.example/1", "https://a.example/2");
      ("a.example/2", "https://a.example/3");
      ("a.example/3", "https://a.example/4") ].

(** A cycle of four URLs: /0 -> /1 -> /2 -> /3 -> /0. *)
Definition fourCycle : Network :=
  redirecting
    [ ("a.example/0", "https://a.example/1");
      ("a.example/1", "https://a.example/2");
      ("a.example/2", "https://a.example/3");
      ("a.example/3", "https://a.example/0") ].

(** A cycle of three URLs that is entered at [https://a.example], written
    without the path the parser adds: / -> /1 -> /2 -> /. *)
Definition cycleToBareStart : Network :=
  redirecting
    [ ("a.example/", "https://a.example/1");
      ("a.example/1", "https://a.example/2");
      ("a.example/2", "https://a.example") ].

(** A URL that redirects to itself. *)
Definition selfRedirect : Network :=
  redirecting [ ("a.example/x.png", "https://a.example/x.png") ].

(** Every request call throws. *)
Definition throwingRequests : Network :=
  {| dnsLookup := fun _ => LookupResolved publicAddress;
     httpsRequest := fun _ => RequestThrows (JsError "connect EMFILE 10.1.2.3:443") |}.

(** No name resolves. *)
Definition noDns : Network :=
  {| dnsLookup := fun _ => LookupRejected (JsError "getaddrinfo ENOTFOUND");
     httpsRequest := fun _ => ErrorEvent |}.

(** A name with a public and a private address, the private one last. *)
Definition mixedDns : Network :=
  {| dnsLookup := fun _ =>
       LookupResolved [ {| address := "93.184.216.34"; family := 4 |};
                        {| address := "10.0.0.7"; family := 4 |} ];
     httpsRequest := fun _ => ErrorEvent |}.

Definition probeOf (hostname path : string) : Event :=
  EvRequest {| opt_hostname := hostname; opt_port := PortNumber 443;
               opt_path := path; opt_method := "HEAD";
               opt_timeout := 5000;
               opt_userAgent := "MD2Slide-ImageValidator/1.0" |}.

End Scenario.

Module ScenarioUrls.

Definition metadataUrl : URL :=
  {| protocol := "https:"; hostname := "169.254.169.254"; port := EmptyString;
     pathname := "/latest/meta-data/"; search := EmptyString;
     href := "https://169.254.169.254/latest/meta-data/" |}.

Definition imageUrl : URL :=
  {| protocol := "https:"; hostname := "a.example"; port := EmptyString;
     pathname := "/x.png"; search := EmptyString; href := "https://a.example/x.png" |}.

(** What the runtime's parser makes of [https://[::1]/x.png]: the host
    keeps its brackets. *)
Definition loopbackUrl : URL :=
  {| protocol := "https:"; hostname := "[::1]"; port := EmptyString;
     pathname := "/x.png"; search := EmptyString; href := "https://[::1]/x.png" |}.

(** Answers every request with the given outcome. *)
Definition answering (o : RequestOutcome) : Network :=
  {| dnsLookup := fun _ => LookupResolved Scenario.publicAddress;
     httpsRequest := fun _ => o |}.

End ScenarioUrls.

(** ** Notions for the further properties *)

Fixpoint countRequests (t : list Event) : nat :=
  match t with
  | [] => 0
  | EvRequest _ :: rest => S (countRequests rest)
  | _ :: rest => countRequests rest
  end.

Fixpoint countLookups (t : list Event) : nat :=
  match t with
  | [] => 0
  | EvLookup _ _ :: rest => S (countLookups rest)
  | _ :: rest => countLookups rest
  end.

(** Every request of the trace was made for a URL that passed single-URL
    validation, with the options the probe builds for it. *)
Definition requestsValidated (U : UrlParser) (net : Network) (t : list Event) : Prop :=
  forall options,
    In (EvRequest options) t ->
    exists u parsedUrl,
      validates U net u
      /\ newURL U u = Some parsedUrl
      /\ options = requestOptions parsedUrl.

(** The messages a verdict of [validateImageUrl] can carry. *)
Definition VERDICT_MESSAGES : list string :=
  [ "Image URL is required"; "Image URL must be a string";
    "Image URL cannot be empty"; "Image URL contains invalid characters";
    "Invalid URL format"; "URL exceeds maximum length";
    "Only HTTPS protocol is allowed for image URLs";
    "Hostname is not allowed"; "IP address is not allowed";
    "Failed to resolve hostname"; "Resolved IP address is not allowed";
    "Redirect loop detected"; "Failed to validate image URL" ].


Fixpoint lastChar (s : string) : option ascii :=
  match s with
  | EmptyString => None
  | String c EmptyString => Some c
  | String _ r => lastChar r
  end.

(** The literal text of a host-name pattern. *)
Definition patternText (p : HostPattern) : string :=
  match p with
  | Exact name => name
  | Suffix dotted => dotted
  end.

(** ** The caller: image URLs of a job ([worker/processor.ts]) *)

(** [.] in a pattern without the [s] flag: any code unit but a line
    terminator (LF and CR below U+0100). *)
Definition isLineTerminator (c : ascii) : bool :=
  (JS.code c =? 10) || (JS.code c =? 13).

(** [(.*?)\)] at the current position: the shortest run of [.] that a
    closing parenthesis follows. The result is the capture group and the
    text after the match. *)
Fixpoint lazyUntilParen (s : string) : option (string * string) :=
  match s with
  | EmptyString => None
  | String c r =>
      if Ascii.eqb c ")" then Some (EmptyString, r)
      else if isLineTerminator c then None
      else match lazyUntilParen r with
           | Some (capture, rest) => Some (String c capture, rest)
           | None => None
           end
  end.

(** [.*?\]\((.*?)\)] at the current position: the lazy [.*?] grows one
    character at a time, and at each length the rest of the pattern is
    tried. *)
Fixpoint lazyUntilBracketParen (s : string) : option (string * string) :=
  match
    match s with
    | String "]" (String "(" r) => lazyUntilParen r
    | _ => None
    end
  with
  | Some m => Some m
  | None =>
      match s with
      | EmptyString => None
      | String c r => if isLineTerminator c then None else lazyUntilBracketParen r
      end
  end.

(** [IMAGE_URL_PATTERN = /!\[.*?\]\((.*?)\)/g] tried at the start of [s]. *)
Definition IMAGE_URL_PATTERN (s : string) : option (string * string) :=
  match s with
  | String "!" (String "[" r) => lazyUntilBracketParen r
  | _ => None
  end.

(** The [while ((match = IMAGE_URL_PATTERN.exec(markdown)) !== null)]
    loop: the capture groups of the successive matches. [exec] looks for
    the first position from [lastIndex] on where the pattern matches and
    moves [lastIndex] behind the match; [behind] is the number of
    characters still to pass before [lastIndex] is reached. *)
Fixpoint execAll (behind : nat) (s : string) : list string :=
  match s with
  | EmptyString => []
  | String _ r =>
      match behind with
      | S k => execAll k r
      | O =>
          match IMAGE_URL_PATTERN s with
          | Some (capture, rest) =>
              capture :: execAll (String.length r - String.length rest) r
          | None => execAll 0 r
          end
      end
  end.

(** The body of the loop, over the captures. *)
Fixpoint collectUrls (captures : list string) : list string :=
  match captures with
  | [] => []
  | capture :: rest =>
      let url := JS.trim capture in
      if JS.startsWith url "data:" || JS.startsWith url "/" || JS.startsWith url "./"
      then collectUrls rest
      else if (String.length url =? 0)%nat then collectUrls rest
      else url :: collectUrls rest
  end.

Definition extractImageURLs (markdown : string) : list string :=
  collectUrls (execAll 0 markdown).

Definition doubleQuote : string := String (ascii_of_nat 34) EmptyString.

(** [`Image URL validation failed for "${url}": ${urlValidation.error}`];
    an [undefined] prints as its name. *)
Definition imageErrorMessage (url : string) (error : option string) : string :=
  "Image URL validation failed for " ++ doubleQuote ++ url ++ doubleQuote ++ ": "
  ++ match error with
     | Some e => e
     | None => "undefined"
     end.

(** Step 2 of [JobProcessor.process], from the extracted URLs on: the
    URLs are validated one after the other; the first rejection is logged
    and ends the job with [queue.fail(jobId, errorMsg)], which is the
    [Some errorMsg] here; [None] is the way on to step 3. The
    informational [console.log] lines are left out. *)
Fixpoint validateJobImages (U : UrlParser) (imageUrls : list string) : Prog (option string) :=
  match imageUrls with
  | [] => Ret None
  | url :: rest =>
      let* urlValidation := validateImageUrl U (JsString url) in
      if negb (valid urlValidation) then
        let errorMsg := imageErrorMessage url (error urlValidation) in
        ConsoleError ["[JobProcessor] " ++ errorMsg] (Ret (Some errorMsg))
      else validateJobImages U rest
  end.

(** A character a capture of the pattern can hold. *)
Definition captureChar (c : ascii) : bool :=
  negb (Ascii.eqb c ")") && negb (isLineTerminator c).

(** A character of an alternative text that cannot end it. *)
Definition altChar (c : ascii) : bool :=
  negb (Ascii.eqb c "]") && negb (isLineTerminator c).

(** On this network [validateImageUrl] accepts the URL. *)
Definition acceptedOn (U : UrlParser) (net : Network) (url : string) : Prop :=
  outcome net (validateImageUrl U (JsString url)) = Fulfilled accept.

(** The platform calls of validating the URLs one after the other. *)
Fixpoint tracesOf (U : UrlParser) (net : Network) (urls : list string) : list Event :=
  match urls with
  | [] => []
  | url :: rest => trace net (validateImageUrl U (JsString url)) ++ tracesOf U net rest
  end.

(** Every lookup of the trace asks for all addresses of the host of a URL
    that passed the length, parse, protocol and host-name steps and whose
    host [isIPAddress] does not accept. Such a host need not be a name:
    a bracketed IPv6 literal such as [[::1]] is one of them. *)
Definition lookupsChecked (U : UrlParser) (t : list Event) : Prop :=
  forall host all,
    In (EvLookup host all) t ->
    all = true
    /\ exists u parsedUrl,
         reachesAddressCheck U u parsedUrl
         /\ hostname parsedUrl = host
         /\ isIPAddress host = false.

(** On this network the probe of [u] reports no redirect. *)
Definition staysAt (U : UrlParser) (net : Network) (u : string) : Prop :=
  outcome net (checkForRedirect U u) = Fulfilled noRedirect.

(** * Properties *)

(** ** Examples of the primitives *)

Example split_fields : JS.split "." "1.2..3" = ["1"; "2"; EmptyString; "3"].
Proof. reflexivity. Qed.

Example parseInt10_prefix : JS.parseInt10 " 42px" = Some 42.
Proof. reflexivity. Qed.

Example parseInt10_nan : JS.parseInt10 "x1" = None.
Proof. reflexivity. Qed.

Example shl_wraps : JS.shl 192 24 = -1073741824.
Proof. reflexivity. Qed.

Example trim_both : JS.trim "  a b  " = "a b".
Proof. reflexivity. Qed.

Example toLowerCase_host : JS.toLowerCase "Foo.LOCAL" = "foo.local".
Proof. reflexivity. Qed.

(** ** Recognising IP literals *)

Example ipv6Pattern_full : ipv6Pattern "2001:db8:0:0:0:0:0:1" = true.
Proof. reflexivity. Qed.

Example ipv6Pattern_too_short : ipv6Pattern "12:34" = false.
Proof. reflexivity. Qed.

Example shorthand_forms :
  map ipv6ShorthandPattern ["::"; "::1"; "fe80::"; "1::2"; "1:2"; "::g"; ":"]
  = [true; true; true; true; false; false; false].
Proof. reflexivity. Qed.

Example doubleSlash_forms :
  map doubleSlashPattern
    ["https://host//evil"; "http://host//evil"; "https://host/a//b"; "https://host/"]
  = [true; true; false; false].
Proof. reflexivity. Qed.

(** ** AddressClassifier: IPv4 *)

Example isBlockedIP_8888 : isBlockedIP "8.8.8.8" = false.
Proof. reflexivity. Qed.

Example isBlockedIP_example_org : isBlockedIP "93.184.216.34" = false.
Proof. reflexivity. Qed.

Example isBlockedIP_loopback : isBlockedIP "127.0.0.1" = true.
Proof. reflexivity. Qed.

Example isBlockedIP_malformed : isBlockedIP "1.2.3" = true.
Proof. reflexivity. Qed.

Example ipToNumber_192 : ipToNumber "192.168.0.0" = -1062731776.
Proof. reflexivity. Qed.

Lemma shl_byte_8 (x : Z) : 0 <= x <= 255 -> JS.shl x 8 = x * 2 ^ 8.
Proof.
  intros Hx. unfold JS.shl, JS.toInt32.
  change (8 mod 32) with 8. rewrite Z.shiftl_mul_pow2 by lia.
  change (2 ^ 31) with 2147483648. change (2 ^ 32) with 4294967296.
  change (2 ^ 8) with 256.
  rewrite (Z.mod_small (x + 2147483648)) by lia.
  rewrite Z.mod_small by lia. lia.
Qed.

Lemma shl_byte_16 (x : Z) : 0 <= x <= 255 -> JS.shl x 16 = x * 2 ^ 16.
Proof.
  intros Hx. unfold JS.shl, JS.toInt32.
  change (16 mod 32) with 16. rewrite Z.shiftl_mul_pow2 by lia.
  change (2 ^ 31) with 2147483648. change (2 ^ 32) with 4294967296.
  change (2 ^ 16) with 65536.
  rewrite (Z.mod_small (x + 2147483648)) by lia.
  rewrite Z.mod_small by lia. lia.
Qed.

(** The top octet is where the signed shift shows: from 128 on, the
    result is negative. *)
Lemma shl_byte_24 (x : Z) :
  0 <= x <= 255 ->
  JS.shl x 24 = if x <? 128 then x * 2 ^ 24 else x * 2 ^ 24 - 2 ^ 32.
Proof.
  intros Hx. unfold JS.shl, JS.toInt32.
  change (24 mod 32) with 24. rewrite Z.shiftl_mul_pow2 by lia.
  change (2 ^ 31) with 2147483648. change (2 ^ 32) with 4294967296.
  change (2 ^ 24) with 16777216.
  rewrite (Z.mod_small (x + 2147483648)) by lia.
  replace (x + 2147483648 - 2147483648) with x by lia.
  destruct (Z.ltb_spec x 128).
  - rewrite Z.mod_small by lia. lia.
  - replace (x * 16777216 + 2147483648)
      with ((x * 16777216 - 2147483648) + 1 * 4294967296) by lia.
    rewrite Z.mod_add by lia. rewrite Z.mod_small by lia. lia.
Qed.

Lemma ipToNumber_quad (ip : string) (a b c d : Z) :
  wellFormedQuad ip a b c d ->
  ipToNumber ip =
    if a <? 128 then quadNumber a b c d else quadNumber a b c d - 2 ^ 32.
Proof.
  intros (Hp & Ha & Hb & Hc & Hd). unfold ipToNumber. rewrite Hp.
  rewrite shl_byte_24, shl_byte_16, shl_byte_8 by assumption.
  unfold quadNumber. destruct (a <? 128); lia.
Qed.

(** Every well-formed address whose first octet is 128 or more is
    reported as blocked: its number is negative and is taken for the
    [-1] of a malformed address. *)
Lemma isBlockedIP_high_octet (ip : string) (a b c d : Z) :
  wellFormedQuad ip a b c d -> 128 <= a -> isBlockedIP ip = true.
Proof.
  intros Hq Ha. unfold isBlockedIP. rewrite (ipToNumber_quad _ _ _ _ _ Hq).
  destruct Hq as (_ & Ha' & Hb & Hc & Hd).
  destruct (Z.ltb_spec a 128); [lia |].
  unfold quadNumber.
  change (2 ^ 32) with 4294967296. change (2 ^ 24) with 16777216.
  change (2 ^ 16) with 65536. change (2 ^ 8) with 256.
  destruct (Z.ltb_spec (a * 16777216 + b * 65536 + c * 256 + d - 4294967296) 0);
    [reflexivity | lia].
Qed.

Ltac pick_disjunct :=
  first [ left; Z.div_mod_to_equations; lia
        | right; pick_disjunct
        | Z.div_mod_to_equations; lia ].

Lemma inSomeRange_bounds (n : Z) (ranges : list IpRange) :
  inSomeRange n ranges =
    existsb (fun be => (fst be <=? n) && (n <=? snd be))
      (map (fun r => (ipToNumber (range_start r), ipToNumber (range_end r))) ranges).
Proof.
  induction ranges as [| r rest IH]; [reflexivity |].
  cbn [inSomeRange map existsb fst snd]. rewrite <- IH.
  destruct ((ipToNumber (range_start r) <=? n) && (n <=? ipToNumber (range_end r)));
    reflexivity.
Qed.

(** Below 128 in the first octet the table is applied as written, and
    there it agrees with the ranges the specification lists. *)
Lemma isBlockedIP_low_octet (ip : string) (a b c d : Z) :
  wellFormedQuad ip a b c d -> a < 128 ->
  isBlockedIP ip = specListedIPv4 a b c d.
Proof.
  intros Hq Ha. unfold isBlockedIP. rewrite (ipToNumber_quad _ _ _ _ _ Hq).
  destruct Hq as (_ & Ha' & Hb & Hc & Hd).
  destruct (Z.ltb_spec a 128); [| lia].
  unfold specListedIPv4. rewrite inSomeRange_bounds.
  set (n := quadNumber a b c d).
  assert (Hn : 0 <= n < 2 ^ 31).
  { unfold n, quadNumber. change (2 ^ 31) with 2147483648.
    change (2 ^ 24) with 16777216. change (2 ^ 16) with 65536.
    change (2 ^ 8) with 256. lia. }
  change (2 ^ 31) with 2147483648 in Hn.
  destruct (Z.ltb_spec n 0); [lia |].
  match goal with
  | |- existsb ?f ?l = _ =>
      let l' := eval vm_compute in l in change l with l'
  end.
  match goal with
  | |- _ = existsb ?f ?l =>
      let l' := eval vm_compute in l in change l with l'
  end.
  cbn [existsb fst snd]. unfold inCidr. cbn [cidr_base cidr_len].
  rewrite !Z.shiftr_div_pow2 by lia. rewrite !orb_false_r.
  clearbody n. apply eq_true_iff_eq.
  rewrite !orb_true_iff, !andb_true_iff, !Z.leb_le, !Z.eqb_eq.
  cbn. split; intros Hr.
  - repeat (destruct Hr as [Hr | Hr]; [try lia |]); try lia; pick_disjunct.
  - repeat (destruct Hr as [Hr | Hr];
            [try (exfalso; Z.div_mod_to_equations; lia) |]);
      try (exfalso; Z.div_mod_to_equations; lia);
      Z.div_mod_to_equations; lia.
Qed.

Lemma isBlockedIP_malformed_fields (ip : string) :
  (forall a b c d, ipParts ip <> [Some a; Some b; Some c; Some d]) ->
  isBlockedIP ip = true.
Proof.
  intros H. unfold isBlockedIP, ipToNumber.
  destruct (ipParts ip) as [| [p0 |] [| [p1 |] [| [p2 |] [| [p3 |] [| x l]]]]];
    try reflexivity.
  exfalso. apply (H p0 p1 p2 p3). reflexivity.
Qed.

(** On well-formed addresses the classifier is the specification's table
    together with everything from 128.0.0.0 up. *)
Lemma isBlockedIP_wellFormed (ip : string) (a b c d : Z) :
  wellFormedQuad ip a b c d ->
  isBlockedIP ip = (128 <=? a) || specListedIPv4 a b c d.
Proof.
  intros Hq. destruct (Z.leb_spec 128 a) as [Ha | Ha]; cbn [orb].
  - apply (isBlockedIP_high_octet ip a b c d); assumption.
  - apply isBlockedIP_low_octet; assumption.
Qed.

(** Every well-formed address in a range the specification lists is
    blocked. *)
Lemma listed_quad_blocked (ip : string) (a b c d : Z) :
  wellFormedQuad ip a b c d -> specListedIPv4 a b c d = true -> isBlockedIP ip = true.
Proof.
  intros Hq Hl. rewrite (isBlockedIP_wellFormed ip a b c d Hq), Hl.
  apply orb_true_r.
Qed.

(** C2 (the code departs from the claim): the claim has [isBlockedIP]
    return true exactly on the listed ranges and on malformed input. The
    well-formed public address 142.250.80.46 lies in none of the listed
    ranges, and [isBlockedIP] returns true for it: [142 << 24] is
    negative in 32-bit arithmetic, so the address is taken for a
    malformed one. *)
Theorem C2_public_address_reported_blocked :
  wellFormedQuad "142.250.80.46" 142 250 80 46
  /\ specListedIPv4 142 250 80 46 = false
  /\ ipToNumber "142.250.80.46" = -1896198098
  /\ isBlockedIP "142.250.80.46" = true.
Proof.
  repeat split; try reflexivity; lia.
Qed.

Example isBlockedIP_octet_overflow : isBlockedIP "1.2.3.999" = false.
Proof. reflexivity. Qed.

(** ** AddressClassifier: IPv6 *)

Example isBlockedIPv6_mapped_upper : isBlockedIPv6 "::FFFF:10.0.0.1" = true.
Proof. reflexivity. Qed.

Example isBlockedIPv6_public_mapped : isBlockedIPv6 "::ffff:8.8.8.8" = false.
Proof. reflexivity. Qed.

Example firstGroup_fe80 : firstGroup "FE80::1" = Some 0xfe80.
Proof. reflexivity. Qed.

Example firstGroup_compressed : firstGroup "::1" = Some 0.
Proof. reflexivity. Qed.

Ltac case_true b := destruct b; cbn [orb andb]; [reflexivity |].

(** [isBlockedIPv6] is its prefix tests followed by the IPv4-mapped
    test. *)
Lemma isBlockedIPv6_rules (ip : string) :
  isBlockedIPv6 ip =
    prefixRules ip
    || (JS.includes (JS.toLowerCase ip) ":ffff:"
        && match matchMappedQuad (JS.toLowerCase ip) with
           | Some quad => isBlockedIP quad
           | None => false
           end).
Proof.
  unfold isBlockedIPv6, prefixRules.
  set (n := JS.toLowerCase ip).
  case_true (String.eqb n "::1"). case_true (String.eqb n "0:0:0:0:0:0:0:1").
  case_true (String.eqb n "::"). case_true (String.eqb n "0:0:0:0:0:0:0:0").
  case_true (JS.startsWith n "fe80:"). case_true (JS.startsWith n "fe8").
  case_true (JS.startsWith n "fe9"). case_true (JS.startsWith n "fea").
  case_true (JS.startsWith n "feb"). case_true (JS.startsWith n "fc").
  case_true (JS.startsWith n "fd"). case_true (JS.startsWith n "ff").
  destruct (JS.includes n ":ffff:"); cbn [andb]; [| reflexivity].
  destruct (matchMappedQuad n) as [q |]; [| reflexivity].
  destruct (isBlockedIP q); reflexivity.
Qed.

Lemma hexValue_lower (c : ascii) (d : Z) :
  hexValue c = Some d -> 0 <= d <= 15 /\ JS.toLowerChar c = lowerHex d.
Proof.
  destruct c as [b0 b1 b2 b3 b4 b5 b6 b7].
  destruct b0, b1, b2, b3, b4, b5, b6, b7; intros H; vm_compute in H;
    try discriminate H; injection H as <-; (split; [lia | reflexivity]).
Qed.

Lemma hexGroup_inv (acc : Z) (n : nat) (s : string) (g : Z) :
  hexGroup acc n s = Some g ->
  (exists r, s = String ":" r /\ g = acc)
  \/ (exists c d r n', s = String c r /\ n = S n' /\ hexValue c = Some d
                       /\ hexGroup (16 * acc + d) n' r = Some g).
Proof.
  destruct s as [| c r]; cbn [hexGroup]; [discriminate |].
  destruct (Ascii.eqb_spec c ":") as [-> | Hc].
  - intros [= <-]. left. exists r. split; reflexivity.
  - destruct n as [| n']; [discriminate |].
    destruct (hexValue c) as [d |] eqn:Hd; [| discriminate].
    intros H. right. exists c, d, r, n'. repeat split; assumption.
Qed.

(** A first group of 0x1000 or more is written with four digits, and
    these are the digits of its value. *)
Lemma firstGroup_four_digits (ip : string) (g : Z) :
  firstGroup ip = Some g -> 0x1000 <= g ->
  exists d1 d2 d3 d4 r,
    JS.toLowerCase ip =
      String (lowerHex d1) (String (lowerHex d2) (String (lowerHex d3)
        (String (lowerHex d4) (String ":" (JS.toLowerCase r)))))
    /\ 0 <= d1 <= 15 /\ 0 <= d2 <= 15 /\ 0 <= d3 <= 15 /\ 0 <= d4 <= 15
    /\ g = 4096 * d1 + 256 * d2 + 16 * d3 + d4.
Proof.
  unfold firstGroup. intros H Hg.
  apply hexGroup_inv in H as [(r & -> & ->) | (c1 & d1 & r1 & n1 & -> & [= <-] & H1 & H)];
    [lia |].
  apply hexValue_lower in H1 as [B1 L1].
  apply hexGroup_inv in H as [(r & -> & ->) | (c2 & d2 & r2 & n2 & -> & [= <-] & H2 & H)];
    [lia |].
  apply hexValue_lower in H2 as [B2 L2].
  apply hexGroup_inv in H as [(r & -> & ->) | (c3 & d3 & r3 & n3 & -> & [= <-] & H3 & H)];
    [lia |].
  apply hexValue_lower in H3 as [B3 L3].
  apply hexGroup_inv in H as [(r & -> & ->) | (c4 & d4 & r4 & n4 & -> & [= <-] & H4 & H)];
    [lia |].
  apply hexValue_lower in H4 as [B4 L4].
  apply hexGroup_inv in H as [(r & -> & ->) | (c5 & d5 & r5 & n5 & _ & [=] & _)].
  exists d1, d2, d3, d4, r. cbn [JS.toLowerCase].
  rewrite L1, L2, L3, L4. repeat split; lia || reflexivity.
Qed.

Lemma groupInPrefix_range (g base len : Z) :
  0 <= len <= 16 ->
  groupInPrefix g base len ->
  base / 2 ^ (16 - len) * 2 ^ (16 - len) <= g
  /\ g < (base / 2 ^ (16 - len) + 1) * 2 ^ (16 - len).
Proof.
  intros Hl. unfold groupInPrefix. rewrite !Z.shiftr_div_pow2 by lia.
  intros <-. assert (0 < 2 ^ (16 - len)) by (apply Z.pow_pos_nonneg; lia).
  pose proof (Z.mul_div_le g _ H). pose proof (Z.mul_succ_div_gt g _ H). lia.
Qed.

Ltac digit_cases d :=
  let H := fresh in
  assert (H : d = 0 \/ d = 1 \/ d = 2 \/ d = 3 \/ d = 4 \/ d = 5 \/ d = 6 \/ d = 7
              \/ d = 8 \/ d = 9 \/ d = 10 \/ d = 11 \/ d = 12 \/ d = 13
              \/ d = 14 \/ d = 15) by lia;
  repeat (destruct H as [H | H]; [subst d |]); [.. | subst d].

(** Hide a digit the prefix tests do not reach, evaluate the tests on the
    digits that are known. *)
Ltac by_prefix d :=
  generalize (lowerHex d); intro;
  try (cbn; rewrite ?orb_true_r; reflexivity).

Lemma prefixRules_blocked (ip : string) :
  prefixRules ip = true -> isBlockedIPv6 ip = true.
Proof. intros H. rewrite isBlockedIPv6_rules, H. reflexivity. Qed.

Lemma link_local_blocked (ip : string) (g : Z) :
  firstGroup ip = Some g -> groupInPrefix g 0xfe80 10 -> isBlockedIPv6 ip = true.
Proof.
  intros Hg Hp. apply groupInPrefix_range in Hp; [| lia].
  change (0xfe80 / 2 ^ (16 - 10) * 2 ^ (16 - 10)) with 65152 in Hp.
  change ((0xfe80 / 2 ^ (16 - 10) + 1) * 2 ^ (16 - 10)) with 65216 in Hp.
  destruct (firstGroup_four_digits ip g Hg) as
    (d1 & d2 & d3 & d4 & r & Hl & B1 & B2 & B3 & B4 & ->); [lia |].
  assert (d1 = 15) as -> by lia. assert (d2 = 14) as -> by lia.
  assert (8 <= d3 <= 11) as B3' by lia.
  apply prefixRules_blocked. unfold prefixRules. rewrite Hl.
  digit_cases d3; try lia; by_prefix d4.
Qed.

Lemma unique_local_blocked (ip : string) (g : Z) :
  firstGroup ip = Some g -> groupInPrefix g 0xfc00 7 -> isBlockedIPv6 ip = true.
Proof.
  intros Hg Hp. apply groupInPrefix_range in Hp; [| lia].
  change (0xfc00 / 2 ^ (16 - 7) * 2 ^ (16 - 7)) with 64512 in Hp.
  change ((0xfc00 / 2 ^ (16 - 7) + 1) * 2 ^ (16 - 7)) with 65024 in Hp.
  destruct (firstGroup_four_digits ip g Hg) as
    (d1 & d2 & d3 & d4 & r & Hl & B1 & B2 & B3 & B4 & ->); [lia |].
  assert (d1 = 15) as -> by lia. assert (12 <= d2 <= 13) as B2' by lia.
  apply prefixRules_blocked. unfold prefixRules. rewrite Hl.
  digit_cases d2; try lia; by_prefix d3; by_prefix d4.
Qed.

Lemma multicast_blocked (ip : string) (g : Z) :
  firstGroup ip = Some g -> groupInPrefix g 0xff00 8 -> isBlockedIPv6 ip = true.
Proof.
  intros Hg Hp. apply groupInPrefix_range in Hp; [| lia].
  change (0xff00 / 2 ^ (16 - 8) * 2 ^ (16 - 8)) with 65280 in Hp.
  change ((0xff00 / 2 ^ (16 - 8) + 1) * 2 ^ (16 - 8)) with 65536 in Hp.
  destruct (firstGroup_four_digits ip g Hg) as
    (d1 & d2 & d3 & d4 & r & Hl & B1 & B2 & B3 & B4 & ->); [lia |].
  assert (d1 = 15) as -> by lia. assert (d2 = 15) as -> by lia.
  apply prefixRules_blocked. unfold prefixRules. rewrite Hl.
  by_prefix d3; by_prefix d4.
Qed.

Lemma substring_full (s : string) : substring 0 (String.length s) s = s.
Proof. induction s as [| c r IH]; cbn; [reflexivity | rewrite IH; reflexivity]. Qed.

Lemma mappedQuadHere_at (quad : string) :
  mappedQuadHere (":ffff:" ++ quad) = if ipv4Pattern quad then Some quad else None.
Proof.
  unfold mappedQuadHere.
  change (JS.startsWith (":ffff:" ++ quad) ":ffff:") with true.
  cbn [append String.length Nat.sub substring].
  rewrite Nat.sub_0_r, substring_full. reflexivity.
Qed.

Lemma matchMappedQuad_mapped (quad : string) :
  ipv4Pattern quad = true -> matchMappedQuad ("::ffff:" ++ quad) = Some quad.
Proof.
  intros Hq.
  change (matchMappedQuad ("::ffff:" ++ quad))
    with (match mappedQuadHere (":ffff:" ++ quad) with
          | Some q => Some q
          | None => match ":ffff:" ++ quad with
                    | EmptyString => None
                    | String _ r => matchMappedQuad r
                    end
          end).
  rewrite mappedQuadHere_at, Hq. reflexivity.
Qed.

Lemma mapped_blocked (ip quad : string) :
  JS.toLowerCase ip = "::ffff:" ++ quad ->
  ipv4Pattern quad = true -> isBlockedIP quad = true -> isBlockedIPv6 ip = true.
Proof.
  intros Hl Hq Hb. rewrite isBlockedIPv6_rules, Hl.
  rewrite (matchMappedQuad_mapped quad Hq), Hb.
  change (JS.includes ("::ffff:" ++ quad) ":ffff:") with (true || JS.includes (":ffff:" ++ quad) ":ffff:").
  cbn [orb andb]. apply orb_true_r.
Qed.

(** C4: [isBlockedIPv6] returns true for [::1], for [::], for every
    address whose first group lies in fe80::/10, fc00::/7 or ff00::/8, and
    for every IPv4-mapped address [::ffff:a.b.c.d] whose dotted quad
    [isBlockedIP] blocks, [::ffff:127.0.0.1] among them; it returns false
    for [2001:4860:4860::8888]. *)
Theorem C4_isBlockedIPv6_listed_addresses :
  (forall ip, SpecBlockedIPv6 ip -> isBlockedIPv6 ip = true)
  /\ isBlockedIPv6 "::ffff:127.0.0.1" = true
  /\ isBlockedIPv6 "2001:4860:4860::8888" = false.
Proof.
  split; [| split; reflexivity].
  intros ip H. destruct H as [| | ip g Hg Hp | ip g Hg Hp | ip g Hg Hp | ip quad Hl Hq Hb].
  - reflexivity.
  - reflexivity.
  - exact (link_local_blocked ip g Hg Hp).
  - exact (unique_local_blocked ip g Hg Hp).
  - exact (multicast_blocked ip g Hg Hp).
  - exact (mapped_blocked ip quad Hl Hq Hb).
Qed.

Lemma C4_witness :
  SpecBlockedIPv6 "FE80::1" /\ isBlockedIPv6 "FE80::1" = true.
Proof.
  assert (H : SpecBlockedIPv6 "FE80::1").
  { apply (blocked_link_local "FE80::1" 0xfe80); reflexivity. }
  split; [exact H |].
  exact (proj1 C4_isBlockedIPv6_listed_addresses "FE80::1" H).
Defined.

Lemma startsWith_app (s p : string) :
  JS.startsWith s p = true ->
  s = p ++ substring (String.length p) (String.length s - String.length p) s.
Proof.
  revert s. induction p as [| a p IH]; intros s H.
  - cbn. rewrite Nat.sub_0_r, substring_full. reflexivity.
  - destruct s as [| b s]; [discriminate |]. cbn in H.
    apply andb_prop in H as [Hab H]. apply Ascii.eqb_eq in Hab. subst b.
    cbn [append String.length Nat.sub substring]. f_equal. apply IH, H.
Qed.

Lemma matchMappedQuad_inv (s quad : string) :
  matchMappedQuad s = Some quad ->
  exists pre, s = pre ++ ":ffff:" ++ quad /\ ipv4Pattern quad = true.
Proof.
  induction s as [| c r IH]; cbn [matchMappedQuad].
  - unfold mappedQuadHere. cbn. discriminate.
  - destruct (mappedQuadHere (String c r)) as [q |] eqn:Hh.
    + intros [= ->]. unfold mappedQuadHere in Hh.
      destruct (JS.startsWith (String c r) ":ffff:") eqn:Hs; [| discriminate].
      destruct (ipv4Pattern _) eqn:Hq in Hh; [| discriminate].
      injection Hh as Hh. exists EmptyString. split; [| rewrite <- Hh; exact Hq].
      rewrite <- Hh. exact (startsWith_app _ _ Hs).
    + intros H. destruct (IH H) as (pre & -> & Hq).
      exists (String c pre). split; [reflexivity | exact Hq].
Qed.

(** C10: the IPv4-mapped test of [isBlockedIPv6] blocks an address only
    when its lower-cased text ends with [:ffff:] followed by a dotted
    decimal quad that [isBlockedIP] blocks; an address the prefix tests
    pass and whose mapped payload is written in hexadecimal, such as
    [::ffff:7f00:1], is reported as not blocked. *)
Theorem C10_mapped_test_needs_dotted_quad :
  (forall ip,
      prefixRules ip = false -> isBlockedIPv6 ip = true ->
      exists pre quad,
        JS.toLowerCase ip = pre ++ ":ffff:" ++ quad
        /\ ipv4Pattern quad = true /\ isBlockedIP quad = true)
  /\ isBlockedIPv6 "::ffff:7f00:1" = false.
Proof.
  split; [| reflexivity].
  intros ip Hp Hb. rewrite isBlockedIPv6_rules, Hp in Hb. cbn [orb] in Hb.
  apply andb_prop in Hb as [_ Hb].
  destruct (matchMappedQuad (JS.toLowerCase ip)) as [quad |] eqn:Hm; [| discriminate].
  destruct (matchMappedQuad_inv _ _ Hm) as (pre & Hl & Hq).
  exists pre, quad. repeat split; assumption.
Qed.

Lemma C10_witness :
  prefixRules "::FFFF:10.0.0.1" = false
  /\ isBlockedIPv6 "::FFFF:10.0.0.1" = true
  /\ exists pre quad,
       JS.toLowerCase "::FFFF:10.0.0.1" = pre ++ ":ffff:" ++ quad
       /\ ipv4Pattern quad = true /\ isBlockedIP quad = true.
Proof.
  split; [reflexivity |]. split; [reflexivity |].
  apply (proj1 C10_mapped_test_needs_dotted_quad "::FFFF:10.0.0.1"); reflexivity.
Defined.

(** ** Running programs *)

Lemma run_bind {A B : Type} (net : Network) (p : Prog A) (f : A -> Prog B) :
  run net (bind p f) =
    match run net p with
    | (Fulfilled a, t) => let '(o, t') := run net (f a) in (o, (t ++ t')%list)
    | (Rejects e, t) => (Rejects e, t)
    end.
Proof.
  induction p as [a | e | host all k IH | options k IH | k IH | args k IH];
    cbn [bind run].
  - destruct (run net (f a)); reflexivity.
  - reflexivity.
  - rewrite IH. destruct (run net (k (dnsLookup net host))) as [[a | e] t];
      [destruct (run net (f a)) |]; reflexivity.
  - rewrite IH. destruct (run net (k (httpsRequest net options))) as [[a | e] t];
      [destruct (run net (f a)) |]; reflexivity.
  - rewrite IH. destruct (run net k) as [[a | e] t];
      [destruct (run net (f a)) |]; reflexivity.
  - rewrite IH. destruct (run net k) as [[a | e] t];
      [destruct (run net (f a)) |]; reflexivity.
Qed.

Lemma run_tryCatch {A : Type} (net : Network) (p : Prog A) (h : Exception -> Prog A) :
  run net (tryCatch p h) =
    match run net p with
    | (Fulfilled a, t) => (Fulfilled a, t)
    | (Rejects e, t) => let '(o, t') := run net (h e) in (o, (t ++ t')%list)
    end.
Proof.
  induction p as [a | e | host all k IH | options k IH | k IH | args k IH];
    cbn [tryCatch run].
  - reflexivity.
  - destruct (run net (h e)); reflexivity.
  - rewrite IH. destruct (run net (k (dnsLookup net host))) as [[a | e] t];
      [| destruct (run net (h e))]; reflexivity.
  - rewrite IH. destruct (run net (k (httpsRequest net options))) as [[a | e] t];
      [| destruct (run net (h e))]; reflexivity.
  - rewrite IH. destruct (run net k) as [[a | e] t];
      [| destruct (run net (h e))]; reflexivity.
  - rewrite IH. destruct (run net k) as [[a | e] t];
      [| destruct (run net (h e))]; reflexivity.
Qed.

Lemma outcome_bind {A B : Type} (net : Network) (p : Prog A) (f : A -> Prog B) :
  outcome net (bind p f) =
    match outcome net p with
    | Fulfilled a => outcome net (f a)
    | Rejects e => Rejects e
    end.
Proof.
  unfold outcome. rewrite run_bind.
  destruct (run net p) as [[a | e] t]; cbn [fst];
    [destruct (run net (f a)) |]; reflexivity.
Qed.

Lemma outcome_tryCatch {A : Type} (net : Network) (p : Prog A) (h : Exception -> Prog A) :
  outcome net (tryCatch p h) =
    match outcome net p with
    | Fulfilled a => Fulfilled a
    | Rejects e => outcome net (h e)
    end.
Proof.
  unfold outcome. rewrite run_tryCatch.
  destruct (run net p) as [[a | e] t]; cbn [fst];
    [| destruct (run net (h e))]; reflexivity.
Qed.

(** ** SingleURLValidator *)

Lemma checkResolved_any (ips : list string) :
  checkResolved ips =
    if existsb isBlockedAddress ips then reject "Resolved IP address is not allowed"
    else accept.
Proof.
  induction ips as [| ip rest IH]; [reflexivity |].
  cbn [checkResolved existsb]. unfold isBlockedAddress at 1.
  destruct (JS.includesChar ip ":").
  - destruct (isBlockedIPv6 ip); [reflexivity | exact IH].
  - destruct (isBlockedIP ip); [reflexivity | exact IH].
Qed.

(** Once the length, parse, protocol and host-name steps are passed, a
    host that [isIPAddress] accepts is classified on the spot: the verdict
    is "IP address is not allowed" when the literal is blocked and success
    otherwise, and the validation is a plain return, with no DNS lookup
    and no other call to the platform. For the cloud metadata URL
    [https://169.254.169.254/latest/meta-data/] (host 169.254.169.254
    under https), [validateImageUrl] so reports "IP address is not
    allowed" without touching the network. *)
Lemma accepted_literal_classified_without_dns (U : UrlParser) :
  (forall urlString parsedUrl,
      reachesAddressCheck U urlString parsedUrl ->
      isIPAddress (hostname parsedUrl) = true ->
      validateSingleUrl U urlString =
        Ret (if isBlockedAddress (hostname parsedUrl)
             then reject "IP address is not allowed"
             else accept))
  /\ (forall parsedUrl net,
         newURL U "https://169.254.169.254/latest/meta-data/" = Some parsedUrl ->
         protocol parsedUrl = "https:" ->
         hostname parsedUrl = "169.254.169.254" ->
         run net (validateImageUrl U (JsString "https://169.254.169.254/latest/meta-data/"))
         = (Fulfilled (reject "IP address is not allowed"), [])).
Proof.
  assert (Hgen : forall urlString parsedUrl,
      reachesAddressCheck U urlString parsedUrl ->
      isIPAddress (hostname parsedUrl) = true ->
      validateSingleUrl U urlString =
        Ret (if isBlockedAddress (hostname parsedUrl)
             then reject "IP address is not allowed"
             else accept)).
  { intros urlString parsedUrl (Hlen & Hparse & Hproto & Hhost) Hip.
    unfold validateSingleUrl.
    destruct (Nat.ltb_spec MAX_URL_LENGTH (String.length urlString)); [lia |].
    rewrite Hparse, Hproto. cbn [String.eqb Ascii.eqb Bool.eqb negb andb].
    change ("https:" =? "https:")%string with true. cbn [negb].
    rewrite Hhost, Hip. unfold isBlockedAddress.
    destruct (JS.includesChar (hostname parsedUrl) ":").
    - destruct (isBlockedIPv6 (hostname parsedUrl)); reflexivity.
    - destruct (isBlockedIP (hostname parsedUrl)); reflexivity. }
  split; [exact Hgen |].
  intros parsedUrl net Hparse Hproto Hhost.
  assert (Hs : validateSingleUrl U "https://169.254.169.254/latest/meta-data/"
               = Ret (reject "IP address is not allowed")).
  { rewrite (Hgen _ parsedUrl).
    - rewrite Hhost. reflexivity.
    - repeat split; try assumption.
      + unfold MAX_URL_LENGTH. cbn [String.length]. lia.
      + rewrite Hhost. reflexivity.
    - rewrite Hhost. reflexivity. }
  unfold validateImageUrl.
  change (JS.trim "https://169.254.169.254/latest/meta-data/")
    with "https://169.254.169.254/latest/meta-data/".
  match goal with
  | |- context [if ?b then _ else _] =>
      let v := eval vm_compute in b in change b with v
  end. cbv iota.
  repeat match goal with
  | |- context [if ?b then _ else _] =>
      let v := eval vm_compute in b in change b with v; cbv iota
  end.
  rewrite followAndValidateRedirects_equation_1, Hs. reflexivity.
Qed.

Example metadata_literal_classified :
  reachesAddressCheck Scenario.plainParser
    "https://169.254.169.254/latest/meta-data/" ScenarioUrls.metadataUrl
  /\ isIPAddress (hostname ScenarioUrls.metadataUrl) = true
  /\ validateSingleUrl Scenario.plainParser "https://169.254.169.254/latest/meta-data/"
     = Ret (reject "IP address is not allowed").
Proof.
  assert (H : reachesAddressCheck Scenario.plainParser
                "https://169.254.169.254/latest/meta-data/" ScenarioUrls.metadataUrl).
  { repeat split; try reflexivity. unfold MAX_URL_LENGTH. cbn [String.length]. lia. }
  split; [exact H |]. split; [reflexivity |].
  exact (proj1 (accepted_literal_classified_without_dns Scenario.plainParser)
           "https://169.254.169.254/latest/meta-data/" ScenarioUrls.metadataUrl
           H eq_refl).
Qed.

Example literal_public_accepted :
  validateSingleUrl Scenario.plainParser "https://8.8.8.8/x.png" = Ret accept.
Proof. reflexivity. Qed.

(** With the runtime's parser an IPv6 host arrives in brackets, which
    [isIPAddress] does not recognise: such a host is handed to the
    resolver. *)
Example bracketed_host_is_resolved :
  trace Scenario.noDns (validateSingleUrl Scenario.plainParser "https://[::1]/x.png")
  = [EvLookup "[::1]" true].
Proof. reflexivity. Qed.

(** *** IPv6 literals

    The parser of the runtime keeps the brackets of an IPv6 literal:
    the host of [https://[::1]/x.png] is [[::1]]. None of the three
    patterns of [isIPAddress] admits a bracket. *)

Lemma split_cons (sep c : ascii) (r : string) :
  Ascii.eqb c sep = false ->
  exists f fs, JS.split sep (String c r) = String c f :: fs.
Proof.
  intros Hc. cbn [JS.split]. rewrite Hc.
  destruct (JS.split sep r) as [| f fs]; eauto.
Qed.

Lemma ipv4Pattern_bracketed (h : string) : ipv4Pattern (String "[" h) = false.
Proof.
  unfold ipv4Pattern.
  destruct (split_cons "." "[" h eq_refl) as (f & fs & ->).
  destruct fs as [| b [| c [| d [| e fs]]]]; try reflexivity.
  unfold isDigits1to3 at 1. cbn [allChars].
  change (JS.isDigit "[") with false.
  rewrite andb_false_l, andb_false_r. reflexivity.
Qed.

Lemma ipv6Pattern_bracketed (h : string) : ipv6Pattern (String "[" h) = false.
Proof.
  unfold ipv6Pattern.
  destruct (split_cons ":" "[" h eq_refl) as (f & fs & ->).
  cbn [forallb]. unfold isHex0to4 at 1. cbn [allChars].
  change (JS.isHexDigit "[") with false.
  rewrite andb_false_l, !andb_false_r. reflexivity.
Qed.

Lemma hexColonPlus_bracketed_prefix (n : nat) (h : string) :
  hexColonPlus (substring 0 n (String "[" h)) = false.
Proof.
  destruct n as [| n]; [reflexivity |].
  cbn [substring]. unfold hexColonPlus. cbn [allChars].
  change (isHexOrColon "[") with false.
  rewrite andb_false_l, andb_false_r. reflexivity.
Qed.

Lemma ipv6ShorthandPattern_bracketed (h : string) :
  ipv6ShorthandPattern (String "[" h) = false.
Proof.
  unfold ipv6ShorthandPattern. cbv zeta.
  rewrite hexColonPlus_bracketed_prefix, andb_false_r.
  change (String "[" h =? "::")%string with (Ascii.eqb "[" ":" && (h =? ":")%string).
  change (JS.startsWith (String "[" h) "::")
    with (Ascii.eqb ":" "[" && JS.startsWith h ":").
  change (Ascii.eqb "[" ":") with false. change (Ascii.eqb ":" "[") with false.
  cbn [andb orb aroundDoubleColon].
  change (JS.startsWith (String "[" h) "::")
    with (Ascii.eqb ":" "[" && JS.startsWith h ":").
  change (isHexOrColon "[") with false.
  reflexivity.
Qed.

(** A host that begins with a bracket is no IP literal for
    [isIPAddress]. *)
Lemma isIPAddress_bracketed (h : string) : isIPAddress (String "[" h) = false.
Proof.
  unfold isIPAddress.
  rewrite ipv4Pattern_bracketed, ipv6Pattern_bracketed, ipv6ShorthandPattern_bracketed.
  reflexivity.
Qed.

(** A URL that reaches the address step with a host [isIPAddress] does
    not accept is settled by one lookup for all addresses of that
    host. *)
Lemma unrecognised_host_is_resolved
  (U : UrlParser) (net : Network) (urlString : string) (parsedUrl : URL) :
  reachesAddressCheck U urlString parsedUrl ->
  isIPAddress (hostname parsedUrl) = false ->
  run net (validateSingleUrl U urlString) =
    (Fulfilled
       match dnsLookup net (hostname parsedUrl) with
       | LookupRejected _ => reject "Failed to resolve hostname"
       | LookupResolved result =>
           if existsb isBlockedAddress (map address result)
           then reject "Resolved IP address is not allowed"
           else accept
       end,
     [EvLookup (hostname parsedUrl) true]).
Proof.
  intros (Hlen & Hparse & Hproto & Hhost) Hip.
  unfold validateSingleUrl.
  destruct (Nat.ltb_spec MAX_URL_LENGTH (String.length urlString)); [lia |].
  rewrite Hparse, Hproto. change ("https:" =? "https:")%string with true.
  cbn [negb]. rewrite Hhost, Hip.
  unfold resolveHostname. cbn [tryCatch bind run].
  destruct (dnsLookup net (hostname parsedUrl)) as [result | e];
    cbn [tryCatch bind run]; [| reflexivity].
  rewrite checkResolved_any. reflexivity.
Qed.

(** C3 (the code departs from the claim for IPv6 literals): the runtime's
    parser reports the host of a URL with an IPv6 literal in brackets,
    and a URL that passes the length, parse, protocol and host-name steps
    with a bracketed host is not treated as an IP literal: [isIPAddress]
    rejects the host, the literal is never classified, and the
    validation asks the resolver for the bracketed text, answering
    "Failed to resolve hostname" when the lookup fails and judging the
    resolver's answer otherwise. The claim's direct classification,
    without DNS, is what the code does for the hosts [isIPAddress]
    accepts, which under that parser are the IPv4 literals only. *)
Theorem C3_bracketed_ipv6_literal_is_resolved
  (U : UrlParser) (net : Network) (urlString : string) (parsedUrl : URL) (h : string) :
  reachesAddressCheck U urlString parsedUrl ->
  hostname parsedUrl = String "[" h ->
  isIPAddress (hostname parsedUrl) = false
  /\ run net (validateSingleUrl U urlString) =
       (Fulfilled
          match dnsLookup net (String "[" h) with
          | LookupRejected _ => reject "Failed to resolve hostname"
          | LookupResolved result =>
              if existsb isBlockedAddress (map address result)
              then reject "Resolved IP address is not allowed"
              else accept
          end,
        [EvLookup (String "[" h) true]).
Proof.
  intros Hreach Hhost.
  assert (Hip : isIPAddress (hostname parsedUrl) = false)
    by (rewrite Hhost; apply isIPAddress_bracketed).
  split; [exact Hip |].
  rewrite (unrecognised_host_is_resolved U net urlString parsedUrl Hreach Hip), Hhost.
  reflexivity.
Qed.

(** The loopback literal [::1] is a blocked address, yet
    [https://[::1]/x.png] is sent to the resolver and reported as a name
    that does not resolve. *)
Lemma C3_witness :
  reachesAddressCheck Scenario.plainParser "https://[::1]/x.png" ScenarioUrls.loopbackUrl
  /\ hostname ScenarioUrls.loopbackUrl = "[::1]"
  /\ isBlockedAddress "::1" = true
  /\ isIPAddress (hostname ScenarioUrls.loopbackUrl) = false
  /\ run Scenario.noDns (validateSingleUrl Scenario.plainParser "https://[::1]/x.png")
     = (Fulfilled (reject "Failed to resolve hostname"), [EvLookup "[::1]" true]).
Proof.
  assert (H : reachesAddressCheck Scenario.plainParser
                "https://[::1]/x.png" ScenarioUrls.loopbackUrl).
  { repeat split; try reflexivity. unfold MAX_URL_LENGTH. cbn [String.length]. lia. }
  split; [exact H |]. split; [reflexivity |]. split; [reflexivity |].
  exact (C3_bracketed_ipv6_literal_is_resolved Scenario.plainParser Scenario.noDns
           "https://[::1]/x.png" ScenarioUrls.loopbackUrl "::1]" H eq_refl).
Defined.

(** The same through the entry point, and for a public literal, which
    the claim expects to be accepted without DNS. *)
Example bracketed_loopback_not_classified :
  run Scenario.noDns (validateImageUrl Scenario.plainParser (JsString "https://[::1]/x.png"))
  = (Fulfilled (reject "Failed to resolve hostname"), [EvLookup "[::1]" true]).
Proof. vm_compute. reflexivity. Qed.

Example bracketed_public_literal_not_accepted :
  isBlockedAddress "2001:4860:4860::8888" = false
  /\ isIPAddress "2001:4860:4860::8888" = true
  /\ run Scenario.noDns
       (validateImageUrl Scenario.plainParser
          (JsString "https://[2001:4860:4860::8888]/x.png"))
     = (Fulfilled (reject "Failed to resolve hostname"),
        [EvLookup "[2001:4860:4860::8888]" true]).
Proof. repeat split; vm_compute; reflexivity. Qed.

(** C5: once the length, parse, protocol and host-name steps are passed,
    a host that is not an IP literal is resolved with one lookup that asks
    for all addresses; a failed lookup gives "Failed to resolve hostname",
    a blocked address anywhere in the answer gives "Resolved IP address is
    not allowed", and otherwise the URL is accepted. *)
Theorem C5_resolved_addresses_all_classified
  (U : UrlParser) (net : Network) (urlString : string) (parsedUrl : URL) :
  reachesAddressCheck U urlString parsedUrl ->
  isIPAddress (hostname parsedUrl) = false ->
  run net (validateSingleUrl U urlString) =
    (Fulfilled
       match dnsLookup net (hostname parsedUrl) with
       | LookupRejected _ => reject "Failed to resolve hostname"
       | LookupResolved result =>
           if existsb isBlockedAddress (map address result)
           then reject "Resolved IP address is not allowed"
           else accept
       end,
     [EvLookup (hostname parsedUrl) true]).
Proof.
  intros (Hlen & Hparse & Hproto & Hhost) Hip.
  unfold validateSingleUrl.
  destruct (Nat.ltb_spec MAX_URL_LENGTH (String.length urlString)); [lia |].
  rewrite Hparse, Hproto. change ("https:" =? "https:")%string with true.
  cbn [negb]. rewrite Hhost, Hip.
  unfold resolveHostname. cbn [tryCatch bind run].
  destruct (dnsLookup net (hostname parsedUrl)) as [result | e];
    cbn [tryCatch bind run]; [| reflexivity].
  rewrite checkResolved_any. reflexivity.
Qed.

Lemma C5_witness :
  reachesAddressCheck Scenario.plainParser "https://a.example/x.png" ScenarioUrls.imageUrl
  /\ isIPAddress (hostname ScenarioUrls.imageUrl) = false
  /\ run Scenario.mixedDns (validateSingleUrl Scenario.plainParser "https://a.example/x.png")
     = (Fulfilled (reject "Resolved IP address is not allowed"),
        [EvLookup "a.example" true]).
Proof.
  assert (H : reachesAddressCheck Scenario.plainParser
                "https://a.example/x.png" ScenarioUrls.imageUrl).
  { repeat split; try reflexivity. unfold MAX_URL_LENGTH. cbn [String.length]. lia. }
  split; [exact H |]. split; [reflexivity |].
  exact (C5_resolved_addresses_all_classified Scenario.plainParser Scenario.mixedDns
           "https://a.example/x.png" ScenarioUrls.imageUrl H eq_refl).
Defined.

Example resolution_failure :
  outcome Scenario.noDns (validateSingleUrl Scenario.plainParser "https://a.example/x.png")
  = Fulfilled (reject "Failed to resolve hostname").
Proof. reflexivity. Qed.

(** ** RedirectProbe *)

Lemma truthy_nonempty (location : string) :
  truthy (Some location) = true <-> location <> EmptyString.
Proof.
  unfold truthy. destruct (String.eqb_spec location EmptyString); cbn; split;
    congruence.
Qed.

Ltac no_redirect :=
  split;
  [ intros ?; cbn [run fst]; split;
    [ discriminate
    | intros Hrr; inversion Hrr; subst; try congruence; lia ]
  | reflexivity ].

(** C6: the probe is one HEAD request with a timeout of 5000 ms. It
    reports a redirect exactly when the response has a status in 300..399
    and a Location header (a value that is not empty) which resolves
    against the probed URL, and the target it reports is the resolved URL.
    Any other response, the error event and the timeout event give "no
    redirect"; on the timeout event the request is destroyed first. *)
Theorem C6_probe_reports_redirects_only
  (U : UrlParser) (net : Network) (urlString : string) (parsedUrl : URL) :
  newURL U urlString = Some parsedUrl ->
  let options := requestOptions parsedUrl in
  let answer := httpsRequest net options in
  opt_method options = "HEAD"
  /\ opt_timeout options = 5000
  /\ (forall target,
         outcome net (checkForRedirect U urlString)
         = Fulfilled {| hasRedirect := true; redirectUrl := Some target |}
         <-> RedirectResponse U urlString answer target)
  /\ ((forall target, ~ RedirectResponse U urlString answer target) ->
      (forall e, answer <> RequestThrows e) ->
      run net (checkForRedirect U urlString)
      = (Fulfilled noRedirect,
         EvRequest options ::
           match answer with
           | TimeoutEvent => [EvDestroy]
           | _ => []
           end)).
Proof.
  intros Hparse options answer.
  split; [reflexivity |]. split; [reflexivity |].
  unfold outcome, checkForRedirect. rewrite Hparse. cbn [run].
  fold options. fold answer.
  destruct answer as [[c |] [l |] | | | e]; cbn [truthy andb].
  - destruct (Z.leb_spec 300 c); destruct (Z.ltb_spec c 400);
      destruct (String.eqb_spec l EmptyString); cbn [andb negb]; try no_redirect.
    destruct (newURLWithBase U l urlString) as [resolved |] eqn:Hr;
      try no_redirect.
    split.
    + intros target. cbn [run fst]. split.
      * intros [= <-]. constructor; [lia | assumption..].
      * intros Hrr. inversion Hrr; subst. congruence.
    + intros Hno _. exfalso. apply (Hno (href resolved)).
      constructor; [lia | assumption..].
  - rewrite andb_false_r. no_redirect.
  - no_redirect.
  - no_redirect.
  - no_redirect.
  - no_redirect.
  - split.
    + intros target. cbn [run fst]. split; [discriminate | intros Hrr; inversion Hrr].
    + intros _ Hne. exfalso. exact (Hne e eq_refl).
Qed.

Lemma C6_witness :
  let net := ScenarioUrls.answering (ResponseEvent (Some 302) (Some "/y.png")) in
  newURL Scenario.plainParser "https://a.example/x.png" = Some ScenarioUrls.imageUrl
  /\ (forall target,
         outcome net (checkForRedirect Scenario.plainParser "https://a.example/x.png")
         = Fulfilled {| hasRedirect := true; redirectUrl := Some target |}
         <-> RedirectResponse Scenario.plainParser "https://a.example/x.png"
               (ResponseEvent (Some 302) (Some "/y.png")) target).
Proof.
  intros net. split; [reflexivity |].
  exact (proj1 (proj2 (proj2
           (C6_probe_reports_redirects_only Scenario.plainParser net
              "https://a.example/x.png" ScenarioUrls.imageUrl eq_refl)))).
Defined.

Example probe_relative_location :
  outcome (ScenarioUrls.answering (ResponseEvent (Some 302) (Some "/y.png")))
    (checkForRedirect Scenario.plainParser "https://a.example/x.png")
  = Fulfilled {| hasRedirect := true; redirectUrl := Some "https://a.example/y.png" |}.
Proof. reflexivity. Qed.

Example probe_timeout_destroys :
  run (ScenarioUrls.answering TimeoutEvent)
    (checkForRedirect Scenario.plainParser "https://a.example/x.png")
  = (Fulfilled noRedirect, [Scenario.probeOf "a.example" "/x.png"; EvDestroy]).
Proof. reflexivity. Qed.

Example probe_unparseable_location :
  outcome (ScenarioUrls.answering (ResponseEvent (Some 301) (Some "https://")))
    (checkForRedirect Scenario.plainParser "https://a.example/x.png")
  = Fulfilled noRedirect.
Proof. reflexivity. Qed.

Example probe_empty_location :
  outcome (ScenarioUrls.answering (ResponseEvent (Some 302) (Some EmptyString)))
    (checkForRedirect Scenario.plainParser "https://a.example/x.png")
  = Fulfilled noRedirect.
Proof. reflexivity. Qed.

Example probe_not_modified :
  outcome (ScenarioUrls.answering (ResponseEvent (Some 200) (Some "/y.png")))
    (checkForRedirect Scenario.plainParser "https://a.example/x.png")
  = Fulfilled noRedirect.
Proof. reflexivity. Qed.

(** ** ImageURLValidator (entry point) *)

Lemma validateImageUrl_chain (U : UrlParser) (url : string) :
  passesPreValidation url = true ->
  validateImageUrl U (JsString url) =
    tryCatch
      (followAndValidateRedirects U (JS.trim url) 0 [])
      (fun e =>
         ConsoleError
           ["[ImageURLValidator] Validation error:";
            match e with
            | JsError message => message
            | NonError => "Unknown validation error"
            end]
           (Ret (reject "Failed to validate image URL"))).
Proof.
  unfold passesPreValidation, validateImageUrl. intros H.
  repeat (apply andb_prop in H as [H ?]).
  repeat match goal with
         | Hn : negb ?b = true |- _ => apply negb_true_iff in Hn; rewrite Hn
         end.
  reflexivity.
Qed.

Lemma validateImageUrl_pre_rejected (U : UrlParser) (url : string) :
  passesPreValidation url = false ->
  exists msg, validateImageUrl U (JsString url) = Ret (reject msg).
Proof.
  unfold passesPreValidation, validateImageUrl. intros H.
  destruct (String.length (JS.trim url) =? 0)%nat; [eexists; reflexivity |].
  destruct (anyChar isControl (JS.trim url)); [eexists; reflexivity |].
  destruct (JS.includes (JS.trim url) "%40"); [eexists; reflexivity |].
  destruct (JS.includes (JS.trim url) "\"); [eexists; reflexivity |].
  destruct (doubleSlashPattern (JS.trim url)); [eexists; reflexivity |].
  discriminate H.
Qed.

(** The entry point settles with a verdict on every input and every
    network. *)
Lemma validateImageUrl_fulfilled (U : UrlParser) (net : Network) (url : JsValue) :
  exists verdict, outcome net (validateImageUrl U url) = Fulfilled verdict.
Proof.
  destruct url as [| | url |]; try (eexists; reflexivity).
  destruct (passesPreValidation url) eqn:Hp.
  - rewrite (validateImageUrl_chain U url Hp), outcome_tryCatch.
    destruct (outcome net (followAndValidateRedirects U (JS.trim url) 0 []));
      eexists; reflexivity.
  - destruct (validateImageUrl_pre_rejected U url Hp) as [msg ->].
    eexists; reflexivity.
Qed.

Lemma validateImageUrl_catches
  (U : UrlParser) (net : Network) (url : string) (e : Exception) :
  passesPreValidation url = true ->
  outcome net (followAndValidateRedirects U (JS.trim url) 0 []) = Rejects e ->
  run net (validateImageUrl U (JsString url))
  = (Fulfilled (reject "Failed to validate image URL"),
     (trace net (followAndValidateRedirects U (JS.trim url) 0 [])
      ++ [EvConsoleError
            ["[ImageURLValidator] Validation error:";
             match e with
             | JsError message => message
             | NonError => "Unknown validation error"
             end]])%list).
Proof.
  intros Hp Hrej.
  rewrite (validateImageUrl_chain U url Hp), run_tryCatch.
  unfold outcome, trace in *.
  destruct (run net (followAndValidateRedirects U (JS.trim url) 0 [])) as [o t].
  cbn [fst snd] in *. subst o. reflexivity.
Qed.

(** C7: [validateImageUrl] always settles with a verdict, whatever the
    input and whatever the network does, and never with an exception.
    When the chain validation throws, the verdict is the fixed "Failed to
    validate image URL": the message of the exception goes to the console
    and nowhere else. *)
Theorem C7_never_throws (U : UrlParser) (net : Network) :
  (forall url, exists verdict,
      outcome net (validateImageUrl U url) = Fulfilled verdict)
  /\ (forall url e,
         passesPreValidation url = true ->
         outcome net (followAndValidateRedirects U (JS.trim url) 0 []) = Rejects e ->
         run net (validateImageUrl U (JsString url))
         = (Fulfilled (reject "Failed to validate image URL"),
            (trace net (followAndValidateRedirects U (JS.trim url) 0 [])
             ++ [EvConsoleError
                   ["[ImageURLValidator] Validation error:";
                    match e with
                    | JsError message => message
                    | NonError => "Unknown validation error"
                    end]])%list)).
Proof.
  split.
  - exact (validateImageUrl_fulfilled U net).
  - exact (validateImageUrl_catches U net).
Qed.

Lemma C7_witness :
  passesPreValidation "https://a.example/x.png" = true
  /\ outcome Scenario.throwingRequests
       (followAndValidateRedirects Scenario.plainParser (JS.trim "https://a.example/x.png") 0 [])
     = Rejects (JsError "connect EMFILE 10.1.2.3:443")
  /\ outcome Scenario.throwingRequests
       (validateImageUrl Scenario.plainParser (JsString "https://a.example/x.png"))
     = Fulfilled (reject "Failed to validate image URL").
Proof.
  assert (Hp : passesPreValidation "https://a.example/x.png" = true) by reflexivity.
  assert (Hr : outcome Scenario.throwingRequests
                 (followAndValidateRedirects Scenario.plainParser
                    (JS.trim "https://a.example/x.png") 0 [])
               = Rejects (JsError "connect EMFILE 10.1.2.3:443")) by reflexivity.
  split; [exact Hp |]. split; [exact Hr |].
  unfold outcome at 1.
  rewrite (proj2 (C7_never_throws Scenario.plainParser Scenario.throwingRequests)
             "https://a.example/x.png" _ Hp Hr).
  reflexivity.
Defined.

(** ** ChainValidator *)

Lemma Set_has_In (s : list string) (x : string) : Set_has s x = true <-> In x s.
Proof.
  unfold Set_has. rewrite existsb_exists. split.
  - intros (y & Hy & E). apply String.eqb_eq in E. subst y. exact Hy.
  - intros H. exists x. split; [exact H | apply String.eqb_refl].
Qed.

Lemma Set_add_In (s : list string) (x y : string) :
  In y (Set_add s x) <-> In y s \/ y = x.
Proof.
  unfold Set_add. destruct (Set_has s x) eqn:Hx.
  - apply Set_has_In in Hx. split; [tauto |]. intros [H | ->]; assumption.
  - rewrite in_app_iff. cbn [In]. split; intros [H | H]; auto.
    destruct H as [H | []]; auto.
Qed.

Lemma mayProbe_below (c : nat) (A : Type) (x y : A) :
  (c < MAX_REDIRECTS)%nat ->
  match mayProbe c with left _ => x | right _ => y end = x.
Proof. intros H. destruct (mayProbe c) as [_ | N]; [reflexivity |]. exfalso. auto. Qed.

Lemma mayProbe_at_limit (c : nat) (A : Type) (x y : A) :
  (MAX_REDIRECTS <= c)%nat ->
  match mayProbe c with left _ => x | right _ => y end = y.
Proof.
  intros H. destruct (mayProbe c) as [[E | L] | _]; [| | reflexivity];
    unfold MAX_REDIRECTS in *; lia.
Qed.

(** Beyond the limit the chain is rejected at once. *)
Lemma chain_beyond_limit (U : UrlParser) (u : string) (c : nat) (visited : list string) :
  (MAX_REDIRECTS < c)%nat ->
  followAndValidateRedirects U u c visited = Ret (reject "Too many redirects").
Proof.
  intros H. rewrite followAndValidateRedirects_equation_1.
  destruct (Nat.ltb_spec MAX_REDIRECTS c); [reflexivity | lia].
Qed.

(** A URL that was visited before ends the chain. *)
Lemma chain_loop (U : UrlParser) (u : string) (c : nat) (visited : list string) :
  (c <= MAX_REDIRECTS)%nat -> Set_has visited u = true ->
  followAndValidateRedirects U u c visited = Ret (reject "Redirect loop detected").
Proof.
  intros H Hv. rewrite followAndValidateRedirects_equation_1.
  destruct (Nat.ltb_spec MAX_REDIRECTS c); [lia |]. rewrite Hv. reflexivity.
Qed.

(** Below the limit a new URL that validates and redirects is added to
    the visited set and the chain moves on to the target. *)
Lemma chain_step (U : UrlParser) (net : Network) (u v : string) (c : nat)
  (visited : list string) :
  (c < MAX_REDIRECTS)%nat -> Set_has visited u = false ->
  validates U net u -> redirectsTo U net u v ->
  outcome net (followAndValidateRedirects U u c visited)
  = outcome net (followAndValidateRedirects U v (S c) (Set_add visited u)).
Proof.
  intros Hc Hv Hval [Hne Hred]. rewrite followAndValidateRedirects_equation_1.
  destruct (Nat.ltb_spec MAX_REDIRECTS c); [lia |]. rewrite Hv.
  cbv zeta. rewrite outcome_bind. unfold validates in Hval. rewrite Hval.
  cbn [valid accept negb]. rewrite mayProbe_below by exact Hc.
  rewrite outcome_bind, Hred. cbn [hasRedirect redirectUrl andb truthy].
  destruct (String.eqb_spec v EmptyString); [contradiction | reflexivity].
Qed.

(** At the limit a new URL that validates is accepted without a probe. *)
Lemma chain_at_limit (U : UrlParser) (net : Network) (u : string) (visited : list string) :
  Set_has visited u = false -> validates U net u ->
  outcome net (followAndValidateRedirects U u MAX_REDIRECTS visited) = Fulfilled accept.
Proof.
  intros Hv Hval. rewrite followAndValidateRedirects_equation_1.
  rewrite Nat.ltb_irrefl, Hv. cbv zeta.
  rewrite outcome_bind. unfold validates in Hval. rewrite Hval.
  cbn [valid accept negb]. rewrite mayProbe_at_limit by lia. reflexivity.
Qed.

(** The verdicts of the single-URL validator: it always settles, and its
    rejections carry one of its own six messages. *)
Lemma validateSingleUrl_verdicts (U : UrlParser) (net : Network) (u : string) :
  exists r,
    outcome net (validateSingleUrl U u) = Fulfilled r
    /\ (r = accept
        \/ exists msg,
             r = reject msg
             /\ In msg [ "URL exceeds maximum length"; "Invalid URL format";
                         "Only HTTPS protocol is allowed for image URLs";
                         "Hostname is not allowed"; "IP address is not allowed";
                         "Failed to resolve hostname";
                         "Resolved IP address is not allowed" ]).
Proof.
  unfold validateSingleUrl.
  destruct (MAX_URL_LENGTH <? String.length u)%nat;
    [eexists; split; [reflexivity | right; eexists; split; [reflexivity | cbn; tauto]] |].
  destruct (newURL U u) as [parsedUrl |];
    [| eexists; split; [reflexivity | right; eexists; split; [reflexivity | cbn; tauto]]].
  destruct (negb (protocol parsedUrl =? "https:")%string);
    [eexists; split; [reflexivity | right; eexists; split; [reflexivity | cbn; tauto]] |].
  destruct (isBlockedHostname (hostname parsedUrl));
    [eexists; split; [reflexivity | right; eexists; split; [reflexivity | cbn; tauto]] |].
  destruct (isIPAddress (hostname parsedUrl)).
  - destruct (JS.includesChar (hostname parsedUrl) ":");
      [destruct (isBlockedIPv6 (hostname parsedUrl))
      | destruct (isBlockedIP (hostname parsedUrl))];
      eexists; (split; [reflexivity |]); auto;
      right; eexists; (split; [reflexivity | cbn; tauto]).
  - unfold outcome, resolveHostname. cbn [tryCatch bind run].
    destruct (dnsLookup net (hostname parsedUrl)) as [result | e];
      cbn [tryCatch bind run fst].
    + rewrite checkResolved_any.
      destruct (existsb isBlockedAddress (map address result));
        eexists; (split; [reflexivity |]); auto;
        right; eexists; (split; [reflexivity | cbn; tauto]).
    + eexists; split; [reflexivity | right; eexists; split; [reflexivity | cbn; tauto]].
Qed.

(** From the entry point the redirect count never passes the limit, so
    the chain never reports "Too many redirects". *)
Lemma chain_never_too_many (U : UrlParser) (net : Network) (k : nat) :
  forall (c : nat) (u : string) (visited : list string),
    (c + k = MAX_REDIRECTS)%nat ->
    outcome net (followAndValidateRedirects U u c visited)
    <> Fulfilled (reject "Too many redirects").
Proof.
  induction k as [| k IH]; intros c u visited Hc;
    rewrite followAndValidateRedirects_equation_1;
    (destruct (Nat.ltb_spec MAX_REDIRECTS c); [lia |]);
    (destruct (Set_has visited u); [discriminate |]);
    cbv zeta; rewrite outcome_bind;
    destruct (validateSingleUrl_verdicts U net u) as (r & -> & [-> | (msg & -> & Hmsg)]);
    cbn [valid accept reject negb error].
  - rewrite mayProbe_at_limit by lia. discriminate.
  - cbn in Hmsg. intros [= ->]. intuition discriminate.
  - rewrite mayProbe_below by lia. rewrite outcome_bind.
    destruct (outcome net (checkForRedirect U u)) as [[has [target |]] | e];
      cbn [hasRedirect redirectUrl]; try discriminate.
    + destruct (has && truthy (Some target)); [| discriminate].
      apply IH. lia.
    + destruct (has && truthy None); discriminate.
  - cbn in Hmsg. intros [= ->]. intuition discriminate.
Qed.

Lemma validateImageUrl_never_too_many (U : UrlParser) (net : Network) (url : JsValue) :
  outcome net (validateImageUrl U url) <> Fulfilled (reject "Too many redirects").
Proof.
  destruct url as [| | url |]; try discriminate.
  destruct (passesPreValidation url) eqn:Hp.
  - rewrite (validateImageUrl_chain U url Hp), outcome_tryCatch.
    pose proof (chain_never_too_many U net MAX_REDIRECTS 0 (JS.trim url) [] eq_refl) as H.
    destruct (outcome net (followAndValidateRedirects U (JS.trim url) 0 []));
      [exact H | discriminate].
  - unfold passesPreValidation, validateImageUrl in *.
    destruct (String.length (JS.trim url) =? 0)%nat; [discriminate |].
    destruct (anyChar isControl (JS.trim url)); [discriminate |].
    destruct (JS.includes (JS.trim url) "%40"); [discriminate |].
    destruct (JS.includes (JS.trim url) "\"); [discriminate |].
    destruct (doubleSlashPattern (JS.trim url)); [discriminate |].
    discriminate Hp.
Qed.

(** C1 (the code departs from the claim): the claim has a chain of four
    redirects end in "Too many redirects" after four hops. On the chain
    /0 -> /1 -> /2 -> /3 -> /4, where every URL passes single-URL
    validation, [validateImageUrl] validates four URLs, probes the first
    three, never probes /3, and accepts. *)
Theorem C1_four_redirects_accepted :
  redirectChain Scenario.plainParser Scenario.fourRedirects "https://a.example/0"
    [ "https://a.example/1"; "https://a.example/2"; "https://a.example/3";
      "https://a.example/4" ]
  /\ run Scenario.fourRedirects
       (validateImageUrl Scenario.plainParser (JsString "https://a.example/0"))
     = (Fulfilled accept,
        [ EvLookup "a.example" true; Scenario.probeOf "a.example" "/0";
          EvLookup "a.example" true; Scenario.probeOf "a.example" "/1";
          EvLookup "a.example" true; Scenario.probeOf "a.example" "/2";
          EvLookup "a.example" true ]).
Proof.
  split; [| vm_compute; reflexivity].
  repeat (split; [vm_compute; reflexivity
                 || (split; [discriminate | vm_compute; reflexivity]) |]).
  exact I.
Qed.

Lemma not_NoDup_cons (u : string) (l : list string) :
  ~ NoDup (u :: l) -> In u l \/ ~ NoDup l.
Proof.
  intros H. destruct (in_dec string_dec u l) as [Hin | Hnin]; [left; exact Hin |].
  right. intros Hl. apply H. constructor; assumption.
Qed.

(** A chain that comes back, within the redirect limit, to a URL of the
    visited set or to one of its own URLs ends in "Redirect loop
    detected". *)
Lemma chain_revisit (U : UrlParser) (net : Network) (rest : list string) :
  forall (u : string) (c : nat) (visited : list string),
    redirectChain U net u rest ->
    (c + List.length rest <= MAX_REDIRECTS)%nat ->
    (exists x, In x (u :: rest) /\ In x visited) \/ ~ NoDup (u :: rest) ->
    outcome net (followAndValidateRedirects U u c visited)
    = Fulfilled (reject "Redirect loop detected").
Proof.
  induction rest as [| v rest IH]; intros u c visited Hchain Hc Hrep.
  - assert (Hin : In u visited).
    { destruct Hrep as [(x & [<- | []] & Hx) | Hnd]; [exact Hx |].
      exfalso. apply Hnd. repeat constructor. intros []. }
    rewrite chain_loop; [reflexivity | cbn in Hc; lia | apply Set_has_In, Hin].
  - destruct Hchain as (Hval & Hred & Hchain). cbn [List.length] in Hc.
    destruct (Set_has visited u) eqn:Hv.
    + rewrite chain_loop; [reflexivity | lia | exact Hv].
    + rewrite (chain_step U net u v c visited) by (lia || assumption).
      apply IH; [exact Hchain | lia |].
      assert (Hnv : ~ In u visited).
      { intros Hin. apply Set_has_In in Hin. congruence. }
      destruct Hrep as [(x & Hx & Hxv) | Hnd].
      * left. exists x. destruct Hx as [<- | Hx]; [contradiction |].
        split; [exact Hx | apply Set_add_In; left; exact Hxv].
      * apply not_NoDup_cons in Hnd as [Hin | Hnd]; [| right; exact Hnd].
        left. exists u. split; [exact Hin | apply Set_add_In; right; reflexivity].
Qed.

(** C8 as amended: the visited set holds texts, the submitted URL as
    trimmed and each redirect target as the [href] the parser gives it,
    and they are compared as strings. When, within the first
    [MAX_REDIRECTS] redirects, one of these texts occurs twice on the
    redirect chain of a URL, every URL on the way passing single-URL
    validation, [validateImageUrl] answers "Redirect loop detected"; a
    URL that redirects to its own text is the shortest case. *)
Theorem C8_loop_within_limit_detected
  (U : UrlParser) (net : Network) (url : string) (rest : list string) :
  passesPreValidation url = true ->
  redirectChain U net (JS.trim url) rest ->
  (List.length rest <= MAX_REDIRECTS)%nat ->
  ~ NoDup (JS.trim url :: rest) ->
  outcome net (validateImageUrl U (JsString url))
  = Fulfilled (reject "Redirect loop detected").
Proof.
  intros Hp Hchain Hlen Hnd.
  rewrite (validateImageUrl_chain U url Hp), outcome_tryCatch.
  rewrite (chain_revisit U net rest (JS.trim url) 0 []); auto.
Qed.

Lemma C8_witness :
  passesPreValidation "https://a.example/x.png" = true
  /\ redirectChain Scenario.plainParser Scenario.selfRedirect
       (JS.trim "https://a.example/x.png") ["https://a.example/x.png"]
  /\ outcome Scenario.selfRedirect
       (validateImageUrl Scenario.plainParser (JsString "https://a.example/x.png"))
     = Fulfilled (reject "Redirect loop detected").
Proof.
  assert (Hc : redirectChain Scenario.plainParser Scenario.selfRedirect
                 (JS.trim "https://a.example/x.png") ["https://a.example/x.png"]).
  { split; [reflexivity |]. split; [| exact I]. split; [discriminate | reflexivity]. }
  split; [reflexivity |]. split; [exact Hc |].
  apply (C8_loop_within_limit_detected Scenario.plainParser Scenario.selfRedirect
           "https://a.example/x.png" ["https://a.example/x.png"] eq_refl Hc).
  - unfold MAX_REDIRECTS. cbn [List.length]. lia.
  - intros Hnd. inversion Hnd as [| x l Hin _]; subst. apply Hin. left. reflexivity.
Defined.

(** C8 as stated fails: on the cycle /0 -> /1 -> /2 -> /3 -> /0 every URL
    validates and redirects to the next, the chain comes back to the
    visited /0, and [validateImageUrl] accepts. *)
Lemma C8_counterexample :
  passesPreValidation "https://a.example/0" = true
  /\ redirectChain Scenario.plainParser Scenario.fourCycle "https://a.example/0"
       [ "https://a.example/1"; "https://a.example/2"; "https://a.example/3";
         "https://a.example/0" ]
  /\ outcome Scenario.fourCycle
       (validateImageUrl Scenario.plainParser (JsString "https://a.example/0"))
     = Fulfilled accept
  /\ outcome Scenario.fourCycle
       (validateImageUrl Scenario.plainParser (JsString "https://a.example/0"))
     <> Fulfilled (reject "Redirect loop detected").
Proof.
  assert (Hacc : outcome Scenario.fourCycle
                   (validateImageUrl Scenario.plainParser (JsString "https://a.example/0"))
                 = Fulfilled accept) by (vm_compute; reflexivity).
  split; [reflexivity |]. split.
  - repeat (split; [vm_compute; reflexivity
                   || (split; [discriminate | vm_compute; reflexivity]) |]).
    exact I.
  - split; [exact Hacc |]. rewrite Hacc. discriminate.
Qed.

(** The submitted text enters the visited set as written, a redirect
    target as its [href]. A chain that comes back to the submitted URL
    in another spelling is therefore not seen as a loop: from
    [https://a.example] the third redirect leads to [https://a.example/],
    the same URL, and the run accepts; submitted as
    [https://a.example/] the same chain is a loop. *)
Example loop_to_respelled_start_accepted :
  redirectChain Scenario.plainParser Scenario.cycleToBareStart "https://a.example"
    [ "https://a.example/1"; "https://a.example/2"; "https://a.example/" ]
  /\ option_map href (Scenario.parsePlain "https://a.example") = Some "https://a.example/"
  /\ outcome Scenario.cycleToBareStart
       (validateImageUrl Scenario.plainParser (JsString "https://a.example"))
     = Fulfilled accept
  /\ outcome Scenario.cycleToBareStart
       (validateImageUrl Scenario.plainParser (JsString "https://a.example/"))
     = Fulfilled (reject "Redirect loop detected").
Proof.
  split.
  - repeat (split; [vm_compute; reflexivity
                   || (split; [discriminate | vm_compute; reflexivity]) |]).
    exact I.
  - repeat split; vm_compute; reflexivity.
Qed.

(** ** Batch validation *)

Lemma outcome_promiseAll {A : Type} (net : Network) (ps : list (Prog A)) :
  (forall p, In p ps -> exists a, outcome net p = Fulfilled a) ->
  exists results,
    outcome net (promiseAll ps) = Fulfilled results
    /\ Forall2 (fun p a => outcome net p = Fulfilled a) ps results.
Proof.
  induction ps as [| p ps IH]; intros Hall.
  - exists []. split; [reflexivity | constructor].
  - destruct (Hall p (or_introl eq_refl)) as [a Ha].
    destruct IH as (results & Hr & HF); [intros q Hq; apply Hall; right; exact Hq |].
    exists (a :: results). split; [| constructor; assumption].
    cbn [promiseAll]. rewrite outcome_bind, Ha, outcome_bind, Hr. reflexivity.
Qed.

(** C9: [validateImageUrls] settles with one verdict per URL, in the
    order of the input, and each verdict is the one [validateImageUrl]
    gives for that URL on its own; no URL, valid or not, changes the
    verdict of another, and none ends the batch early. *)
Theorem C9_batch_is_elementwise (U : UrlParser) (net : Network) (urls : list string) :
  exists verdicts,
    outcome net (validateImageUrls U urls) = Fulfilled verdicts
    /\ Forall2
         (fun url verdict =>
            outcome net (validateImageUrl U (JsString url)) = Fulfilled verdict)
         urls verdicts.
Proof.
  unfold validateImageUrls.
  destruct (outcome_promiseAll net (map (fun url => validateImageUrl U (JsString url)) urls))
    as (verdicts & Hv & HF).
  - intros p Hp. apply in_map_iff in Hp as (url & <- & _).
    apply validateImageUrl_fulfilled.
  - exists verdicts. split; [exact Hv |].
    clear Hv. revert verdicts HF.
    induction urls as [| url urls IH]; intros verdicts HF; inversion HF; subst;
      constructor; auto.
Qed.

Example batch_mixed :
  outcome Scenario.mixedDns
    (validateImageUrls Scenario.plainParser
       ["http://a.example/x.png"; "https://8.8.8.8/x.png"; "https://10.0.0.1/x.png"])
  = Fulfilled [ reject "Only HTTPS protocol is allowed for image URLs";
                accept;
                reject "IP address is not allowed" ].
Proof. reflexivity. Qed.

(** * Further properties of the validator *)

(** One hop of the chain, as a run. *)
Lemma chain_run (U : UrlParser) (net : Network) (u : string) (c : nat)
  (visited : list string) :
  (c <= MAX_REDIRECTS)%nat -> Set_has visited u = false ->
  run net (followAndValidateRedirects U u c visited) =
    match run net (validateSingleUrl U u) with
    | (Rejects e, t1) => (Rejects e, t1)
    | (Fulfilled r, t1) =>
        if negb (valid r) then (Fulfilled {| valid := false; error := error r |}, t1)
        else if (c <? MAX_REDIRECTS)%nat then
          match run net (checkForRedirect U u) with
          | (Rejects e, t2) => (Rejects e, (t1 ++ t2)%list)
          | (Fulfilled rr, t2) =>
              match hasRedirect rr && truthy (redirectUrl rr), redirectUrl rr with
              | true, Some target =>
                  let '(o, t3) :=
                    run net (followAndValidateRedirects U target (S c) (Set_add visited u)) in
                  (o, (t1 ++ t2 ++ t3)%list)
              | _, _ => (Fulfilled accept, (t1 ++ t2)%list)
              end
          end
        else (Fulfilled accept, t1)
    end.
Proof.
  intros Hc Hv. rewrite followAndValidateRedirects_equation_1.
  destruct (Nat.ltb_spec MAX_REDIRECTS c); [lia |]. rewrite Hv. cbv zeta.
  rewrite run_bind.
  destruct (run net (validateSingleUrl U u)) as [[r | e] t1]; [| reflexivity].
  destruct (negb (valid r)).
  - cbn [run]. rewrite app_nil_r. reflexivity.
  - destruct (Nat.ltb_spec c MAX_REDIRECTS) as [Hlt | Hge].
    + rewrite mayProbe_below by exact Hlt. rewrite run_bind.
      destruct (run net (checkForRedirect U u)) as [[rr | e] t2]; [| reflexivity].
      destruct (hasRedirect rr && truthy (redirectUrl rr)), (redirectUrl rr) as [target |];
        cbn [run]; rewrite ?app_nil_r; try reflexivity.
      destruct (run net (followAndValidateRedirects U target (S c) (Set_add visited u))).
      reflexivity.
    + rewrite mayProbe_at_limit by exact Hge. cbn [run]. rewrite app_nil_r. reflexivity.
Qed.

(** The single-URL validator makes at most one call, a lookup. *)
Lemma validateSingleUrl_trace (U : UrlParser) (net : Network) (u : string) :
  trace net (validateSingleUrl U u) = []
  \/ exists host, trace net (validateSingleUrl U u) = [EvLookup host true].
Proof.
  unfold trace, validateSingleUrl.
  destruct (MAX_URL_LENGTH <? String.length u)%nat; [left; reflexivity |].
  destruct (newURL U u) as [parsedUrl |]; [| left; reflexivity].
  destruct (negb (protocol parsedUrl =? "https:")%string); [left; reflexivity |].
  destruct (isBlockedHostname (hostname parsedUrl)); [left; reflexivity |].
  destruct (isIPAddress (hostname parsedUrl)).
  - left. destruct (JS.includesChar (hostname parsedUrl) ":");
      [destruct (isBlockedIPv6 (hostname parsedUrl))
      | destruct (isBlockedIP (hostname parsedUrl))]; reflexivity.
  - right. exists (hostname parsedUrl).
    unfold resolveHostname. cbn [tryCatch bind run].
    destruct (dnsLookup net (hostname parsedUrl)); reflexivity.
Qed.

(** The probe makes no lookup and at most one request, with the options
    built from the parsed URL. *)
Lemma checkForRedirect_trace (U : UrlParser) (net : Network) (u : string) :
  match newURL U u with
  | None => trace net (checkForRedirect U u) = []
  | Some parsedUrl =>
      trace net (checkForRedirect U u) = [EvRequest (requestOptions parsedUrl)]
      \/ trace net (checkForRedirect U u) = [EvRequest (requestOptions parsedUrl); EvDestroy]
  end.
Proof.
  unfold trace, checkForRedirect.
  destruct (newURL U u) as [parsedUrl |]; [| reflexivity].
  cbn [run].
  destruct (httpsRequest net (requestOptions parsedUrl)) as [status location | | | e];
    try (left; reflexivity); [| right; reflexivity].
  left.
  destruct ((300 <=? match status with Some c => c | None => 0 end)
            && (match status with Some c => c | None => 0 end <? 400)
            && truthy location); [| reflexivity].
  destruct (newURLWithBase U _ u); reflexivity.
Qed.

Lemma countRequests_app (a b : list Event) :
  countRequests (a ++ b) = (countRequests a + countRequests b)%nat.
Proof.
  induction a as [| [host all | options | | args] a IH]; cbn [app countRequests];
    rewrite ?IH; reflexivity.
Qed.

Lemma countLookups_app (a b : list Event) :
  countLookups (a ++ b) = (countLookups a + countLookups b)%nat.
Proof.
  induction a as [| [host all | options | | args] a IH]; cbn [app countLookups];
    rewrite ?IH; reflexivity.
Qed.

Lemma requestsValidated_app (U : UrlParser) (net : Network) (a b : list Event) :
  requestsValidated U net a -> requestsValidated U net b ->
  requestsValidated U net (a ++ b).
Proof.
  intros Ha Hb options Hin. apply in_app_or in Hin as [Hin | Hin]; auto.
Qed.

Lemma valid_verdict_is_accept (U : UrlParser) (net : Network) (u : string)
  (r : ImageValidationResult) :
  outcome net (validateSingleUrl U u) = Fulfilled r -> valid r = true -> r = accept.
Proof.
  intros Ho Hv.
  destruct (validateSingleUrl_verdicts U net u) as (r' & Hr' & [-> | (msg & -> & _)]);
    rewrite Ho in Hr'; injection Hr' as ->; [reflexivity | discriminate Hv].
Qed.

Lemma single_trace_facts (U : UrlParser) (net : Network) (u : string) :
  let t := trace net (validateSingleUrl U u) in
  countRequests t = 0%nat /\ (countLookups t <= 1)%nat /\ requestsValidated U net t.
Proof.
  cbv zeta. destruct (validateSingleUrl_trace U net u) as [-> | [host ->]]; cbn.
  - repeat split; try lia. intros ? [].
  - repeat split; try lia. intros ? [Hin | []]. discriminate Hin.
Qed.

Lemma probe_trace_facts (U : UrlParser) (net : Network) (u : string) :
  validates U net u ->
  let t := trace net (checkForRedirect U u) in
  (countRequests t <= 1)%nat /\ countLookups t = 0%nat /\ requestsValidated U net t.
Proof.
  intros Hval. cbv zeta. pose proof (checkForRedirect_trace U net u) as Ht.
  destruct (newURL U u) as [parsedUrl |] eqn:Hp.
  - destruct Ht as [-> | ->]; cbn; (repeat split; try lia); intros options.
    + intros [Hin | []]. injection Hin as <-. exists u, parsedUrl. auto.
    + intros [Hin | [Hin | []]]; [| discriminate Hin].
      injection Hin as <-. exists u, parsedUrl. auto.
  - rewrite Ht. cbn. repeat split; try lia. intros ? [].
Qed.

(** What one run of the chain does on the network, from any hop within
    the limit: the requests and lookups that remain are bounded by the
    hops that remain, and every request is for a validated URL. *)
Lemma chain_work (U : UrlParser) (net : Network) (k : nat) :
  forall (c : nat) (u : string) (visited : list string),
    (c + k = MAX_REDIRECTS)%nat ->
    let t := trace net (followAndValidateRedirects U u c visited) in
    (countRequests t <= k)%nat
    /\ (countLookups t <= S k)%nat
    /\ requestsValidated U net t.
Proof.
  induction k as [| k IH]; intros c u visited Hc; cbv zeta; unfold trace.
  all: destruct (Set_has visited u) eqn:Hv;
    [ rewrite chain_loop by (lia || assumption); cbn;
      repeat split; try lia; intros ? []
    | rewrite chain_run by (lia || assumption) ].
  all: destruct (single_trace_facts U net u) as (Hr1 & Hl1 & Hv1);
    pose proof (valid_verdict_is_accept U net u) as Hacc;
    unfold trace, outcome in Hr1, Hl1, Hv1, Hacc;
    destruct (run net (validateSingleUrl U u)) as [[r | e] t1] eqn:Hrun;
    cbn [fst snd] in *; [| repeat split; (lia || assumption)].
  all: destruct (valid r) eqn:Hvalid; cbn [negb];
    [| cbn [snd]; repeat split; (lia || assumption)].
  - destruct (Nat.ltb_spec c MAX_REDIRECTS); [lia |].
    cbn [snd]. repeat split; (lia || assumption).
  - destruct (Nat.ltb_spec c MAX_REDIRECTS); [| lia].
    assert (Hval : validates U net u).
    { unfold validates, outcome. rewrite Hrun. cbn [fst]. f_equal. apply Hacc; auto. }
    destruct (probe_trace_facts U net u Hval) as (Hr2 & Hl2 & Hv2).
    unfold trace in Hr2, Hl2, Hv2.
    destruct (run net (checkForRedirect U u)) as [[rr | e] t2]; cbn [snd] in *.
    + destruct (hasRedirect rr && truthy (redirectUrl rr)), (redirectUrl rr) as [target |];
        try (cbn [snd]; rewrite countRequests_app, countLookups_app;
             repeat split; try lia; apply requestsValidated_app; assumption).
      specialize (IH (S c) target (Set_add visited u) ltac:(lia)).
      cbv zeta in IH. unfold trace in IH.
      destruct (run net (followAndValidateRedirects U target (S c) (Set_add visited u)))
        as [o t3]. cbn [snd] in *. destruct IH as (Hr3 & Hl3 & Hv3).
      rewrite !countRequests_app, !countLookups_app.
      repeat split; try lia. repeat apply requestsValidated_app; assumption.
    + cbn [snd]. rewrite countRequests_app, countLookups_app.
      repeat split; try lia. apply requestsValidated_app; assumption.
Qed.

Lemma validateImageUrl_trace (U : UrlParser) (net : Network) (x : JsValue) :
  trace net (validateImageUrl U x) = []
  \/ exists url,
       x = JsString url
       /\ (trace net (validateImageUrl U x)
           = trace net (followAndValidateRedirects U (JS.trim url) 0 [])
           \/ exists args,
                trace net (validateImageUrl U x)
                = (trace net (followAndValidateRedirects U (JS.trim url) 0 [])
                   ++ [EvConsoleError args])%list).
Proof.
  destruct x as [| | url |]; try (left; reflexivity).
  destruct (passesPreValidation url) eqn:Hp.
  - right. exists url. split; [reflexivity |].
    rewrite (validateImageUrl_chain U url Hp). unfold trace. rewrite run_tryCatch.
    destruct (run net (followAndValidateRedirects U (JS.trim url) 0 [])) as [[v | e] t].
    + left. reflexivity.
    + right. eexists. reflexivity.
  - left. destruct (validateImageUrl_pre_rejected U url Hp) as [msg ->]. reflexivity.
Qed.

(** One validation costs at most [MAX_REDIRECTS] HEAD requests and
    [MAX_REDIRECTS + 1] DNS lookups, whatever the input and the network. *)
Theorem validateImageUrl_bounded_work (U : UrlParser) (net : Network) (x : JsValue) :
  (countRequests (trace net (validateImageUrl U x)) <= MAX_REDIRECTS)%nat
  /\ (countLookups (trace net (validateImageUrl U x)) <= S MAX_REDIRECTS)%nat.
Proof.
  destruct (validateImageUrl_trace U net x) as [-> | (url & _ & Ht)];
    [cbn; lia |].
  destruct (chain_work U net MAX_REDIRECTS 0 (JS.trim url) [] eq_refl) as (Hr & Hl & _).
  destruct Ht as [-> | [args ->]]; [split; assumption |].
  rewrite countRequests_app, countLookups_app. cbn. lia.
Qed.

(** No HEAD request leaves the validator for a URL that has not passed
    single-URL validation: every request in a run is the probe of a URL
    that validated on this network. *)
Theorem validateImageUrl_probes_validated_urls_only
  (U : UrlParser) (net : Network) (x : JsValue) :
  requestsValidated U net (trace net (validateImageUrl U x)).
Proof.
  destruct (validateImageUrl_trace U net x) as [-> | (url & _ & Ht)];
    [intros ? [] |].
  destruct (chain_work U net MAX_REDIRECTS 0 (JS.trim url) [] eq_refl) as (_ & _ & Hv).
  destruct Ht as [-> | [args ->]]; [exact Hv |].
  apply requestsValidated_app; [exact Hv |].
  intros ? [Hin | []]. discriminate Hin.
Qed.

Lemma single_messages_in_verdicts (msg : string) :
  In msg [ "URL exceeds maximum length"; "Invalid URL format";
           "Only HTTPS protocol is allowed for image URLs";
           "Hostname is not allowed"; "IP address is not allowed";
           "Failed to resolve hostname"; "Resolved IP address is not allowed" ] ->
  In msg VERDICT_MESSAGES.
Proof.
  intros H. cbn in H. unfold VERDICT_MESSAGES.
  repeat (destruct H as [<- | H]; [cbn; tauto |]). destruct H.
Qed.

Lemma chain_verdicts (U : UrlParser) (net : Network) (k : nat) :
  forall (c : nat) (u : string) (visited : list string) (v : ImageValidationResult),
    (c + k = MAX_REDIRECTS)%nat ->
    outcome net (followAndValidateRedirects U u c visited) = Fulfilled v ->
    v = accept \/ exists msg, v = reject msg /\ In msg VERDICT_MESSAGES.
Proof.
  induction k as [| k IH]; intros c u visited v Hc; unfold outcome.
  all: destruct (Set_has visited u) eqn:Hv;
    [ rewrite chain_loop by (lia || assumption); cbn; intros [= <-];
      right; eexists; split; [reflexivity | cbn; tauto]
    | rewrite chain_run by (lia || assumption) ].
  all: destruct (validateSingleUrl_verdicts U net u) as (r & Hr & Hshape);
    unfold outcome in Hr;
    destruct (run net (validateSingleUrl U u)) as [o t1]; cbn [fst] in Hr; subst o;
    destruct Hshape as [-> | (msg & -> & Hmsg)]; cbn [valid accept reject negb error];
    try (cbn [fst]; intros [= <-]; right; exists msg; split;
         [reflexivity | apply single_messages_in_verdicts, Hmsg]).
  - destruct (Nat.ltb_spec c MAX_REDIRECTS); [lia |]. cbn. intros [= <-]. left; reflexivity.
  - destruct (Nat.ltb_spec c MAX_REDIRECTS); [| lia].
    destruct (run net (checkForRedirect U u)) as [[rr | e] t2]; [| discriminate].
    destruct (hasRedirect rr && truthy (redirectUrl rr)), (redirectUrl rr) as [target |];
      try (cbn; intros [= <-]; left; reflexivity).
    specialize (IH (S c) target (Set_add visited u) v ltac:(lia)). unfold outcome in IH.
    destruct (run net (followAndValidateRedirects U target (S c) (Set_add visited u)))
      as [o t3]. cbn [fst] in *. exact IH.
Qed.

(** A verdict is never half filled: it is the accepting verdict, with no
    message, or a rejection that carries one of thirteen fixed messages
    ("Too many redirects" is not among them). *)
Theorem validateImageUrl_verdict_shape (U : UrlParser) (net : Network) (x : JsValue) :
  exists v,
    outcome net (validateImageUrl U x) = Fulfilled v
    /\ (v = accept \/ exists msg, v = reject msg /\ In msg VERDICT_MESSAGES).
Proof.
  destruct x as [| | url |];
    try (eexists; split; [reflexivity |]; right; eexists; split;
         [reflexivity | cbn; tauto]).
  destruct (passesPreValidation url) eqn:Hp.
  - rewrite (validateImageUrl_chain U url Hp), outcome_tryCatch.
    destruct (outcome net (followAndValidateRedirects U (JS.trim url) 0 [])) as [v | e] eqn:Ho.
    + exists v. split; [reflexivity |].
      exact (chain_verdicts U net MAX_REDIRECTS 0 (JS.trim url) [] v eq_refl Ho).
    + eexists. split; [reflexivity |]. right. eexists. split; [reflexivity | cbn; tauto].
  - unfold passesPreValidation, validateImageUrl in *.
    destruct (String.length (JS.trim url) =? 0)%nat;
      [eexists; split; [reflexivity |]; right; eexists; split; [reflexivity | cbn; tauto] |].
    destruct (anyChar isControl (JS.trim url));
      [eexists; split; [reflexivity |]; right; eexists; split; [reflexivity | cbn; tauto] |].
    destruct (JS.includes (JS.trim url) "%40");
      [eexists; split; [reflexivity |]; right; eexists; split; [reflexivity | cbn; tauto] |].
    destruct (JS.includes (JS.trim url) "\");
      [eexists; split; [reflexivity |]; right; eexists; split; [reflexivity | cbn; tauto] |].
    destruct (doubleSlashPattern (JS.trim url));
      [eexists; split; [reflexivity |]; right; eexists; split; [reflexivity | cbn; tauto] |].
    discriminate Hp.
Qed.




(** The probe fails open: when the URL validates and its probe ends in
    the error event or the timeout event, the URL is accepted. *)
Theorem validateImageUrl_probe_failure_accepts
  (U : UrlParser) (net : Network) (url : string) (parsedUrl : URL) :
  passesPreValidation url = true ->
  validates U net (JS.trim url) ->
  newURL U (JS.trim url) = Some parsedUrl ->
  httpsRequest net (requestOptions parsedUrl) = ErrorEvent
  \/ httpsRequest net (requestOptions parsedUrl) = TimeoutEvent ->
  outcome net (validateImageUrl U (JsString url)) = Fulfilled accept.
Proof.
  intros Hp Hval Hparse Hans.
  rewrite (validateImageUrl_chain U url Hp), outcome_tryCatch.
  unfold outcome. rewrite chain_run by (unfold MAX_REDIRECTS; lia || reflexivity).
  unfold validates, outcome in Hval.
  destruct (run net (validateSingleUrl U (JS.trim url))) as [o t1].
  cbn [fst] in Hval. subst o. cbn [valid accept negb].
  change (0 <? MAX_REDIRECTS)%nat with true. cbv iota.
  unfold checkForRedirect. rewrite Hparse. cbn [run].
  destruct Hans as [-> | ->]; reflexivity.
Qed.

Lemma validateImageUrl_probe_failure_accepts_witness :
  passesPreValidation "https://a.example/x.png" = true
  /\ validates Scenario.plainParser (ScenarioUrls.answering TimeoutEvent)
       (JS.trim "https://a.example/x.png")
  /\ outcome (ScenarioUrls.answering TimeoutEvent)
       (validateImageUrl Scenario.plainParser (JsString "https://a.example/x.png"))
     = Fulfilled accept.
Proof.
  assert (Hv : validates Scenario.plainParser (ScenarioUrls.answering TimeoutEvent)
                 (JS.trim "https://a.example/x.png")) by (vm_compute; reflexivity).
  split; [reflexivity |]. split; [exact Hv |].
  exact (validateImageUrl_probe_failure_accepts Scenario.plainParser
           (ScenarioUrls.answering TimeoutEvent) "https://a.example/x.png"
           ScenarioUrls.imageUrl eq_refl Hv eq_refl (or_intror eq_refl)).
Defined.



(** ** HostnameClassifier *)

Lemma toLowerChar_idempotent (c : ascii) :
  JS.toLowerChar (JS.toLowerChar c) = JS.toLowerChar c.
Proof.
  destruct c as [b0 b1 b2 b3 b4 b5 b6 b7].
  destruct b0, b1, b2, b3, b4, b5, b6, b7; reflexivity.
Qed.

Lemma toLowerCase_idempotent (s : string) :
  JS.toLowerCase (JS.toLowerCase s) = JS.toLowerCase s.
Proof.
  induction s as [| c r IH]; cbn [JS.toLowerCase]; [reflexivity |].
  rewrite toLowerChar_idempotent, IH. reflexivity.
Qed.

Lemma anyPattern_lower (ps : list HostPattern) (s : string) :
  anyPattern ps (JS.toLowerCase s) = anyPattern ps s.
Proof.
  induction ps as [| p ps IH]; [reflexivity |].
  cbn [anyPattern]. rewrite IH.
  destruct p; cbn [pattern_test]; rewrite toLowerCase_idempotent; reflexivity.
Qed.

(** Two host names that differ only in letter case get the same answer. *)
Lemma isBlockedHostname_same_case (h h' : string) :
  JS.toLowerCase h = JS.toLowerCase h' ->
  isBlockedHostname h = isBlockedHostname h'.
Proof. unfold isBlockedHostname. intros ->. reflexivity. Qed.

Lemma lastChar_app (a b : string) :
  b <> EmptyString -> lastChar (a ++ b) = lastChar b.
Proof.
  intros Hb. induction a as [| c r IH]; [reflexivity |].
  cbn [append lastChar]. rewrite IH.
  destruct (r ++ b) eqn:E; [| reflexivity].
  destruct r; [cbn in E; contradiction | discriminate E].
Qed.

Lemma toLowerCase_app (a b : string) :
  JS.toLowerCase (a ++ b) = JS.toLowerCase a ++ JS.toLowerCase b.
Proof.
  induction a as [| c r IH]; [reflexivity |].
  cbn [append JS.toLowerCase]. rewrite IH. reflexivity.
Qed.

Lemma substring_split (n : nat) :
  forall s, (n <= String.length s)%nat ->
            s = substring 0 n s ++ substring n (String.length s - n) s.
Proof.
  induction n as [| n IH]; intros s Hn.
  - rewrite Nat.sub_0_r, substring_full. destruct s; reflexivity.
  - destruct s as [| c r]; [cbn in Hn; lia |].
    cbn [String.length Nat.sub substring append]. f_equal.
    apply IH. cbn in Hn. lia.
Qed.

Lemma endsWith_app (s p : string) :
  JS.endsWith s p = true -> exists pre, s = pre ++ p.
Proof.
  unfold JS.endsWith. intros H. apply andb_prop in H as [Hlen Heq].
  apply Nat.leb_le in Hlen. apply String.eqb_eq in Heq.
  exists (substring 0 (String.length s - String.length p) s).
  pose proof (substring_split (String.length s - String.length p) s ltac:(lia)) as Hs.
  replace (String.length s - (String.length s - String.length p))%nat
    with (String.length p) in Hs by lia.
  rewrite Heq in Hs. exact Hs.
Qed.

Lemma pattern_test_lastChar (p : HostPattern) (s : string) :
  patternText p <> EmptyString ->
  pattern_test p s = true ->
  lastChar (JS.toLowerCase s) = lastChar (patternText p).
Proof.
  intros Hne. destruct p as [name | dotted]; cbn [pattern_test patternText] in *.
  - intros H. apply String.eqb_eq in H. rewrite H. reflexivity.
  - intros H. apply endsWith_app in H as [pre ->]. apply lastChar_app, Hne.
Qed.

(** A host name written with a trailing dot matches none of the blocked
    patterns, whatever stands before the dot: the patterns are anchored
    at the end of the name and none of them ends in a dot. *)
Theorem isBlockedHostname_trailing_dot (h : string) :
  isBlockedHostname (h ++ ".") = false.
Proof.
  unfold isBlockedHostname. rewrite anyPattern_lower.
  assert (Hall : Forall (fun p => patternText p <> EmptyString
                                  /\ lastChar (patternText p) <> Some "."%char)
                   BLOCKED_HOSTNAME_PATTERNS).
  { unfold BLOCKED_HOSTNAME_PATTERNS.
    repeat (constructor; [split; cbn; discriminate |]). constructor. }
  induction Hall as [| p ps [Hne Hlast] _ IH]; [reflexivity |].
  cbn [anyPattern]. destruct (pattern_test p (h ++ ".")) eqn:Ht; [| exact IH].
  exfalso. apply Hlast. rewrite <- (pattern_test_lastChar p (h ++ ".") Hne Ht).
  rewrite toLowerCase_app. apply lastChar_app. discriminate.
Qed.

(** ** Recognising IP literals: the dispatch by family *)

Lemma split_no_separator (sep : ascii) (s : string) :
  JS.includesChar s sep = false -> JS.split sep s = [s].
Proof.
  induction s as [| c r IH]; cbn [JS.includesChar JS.split]; [reflexivity |].
  intros H. apply orb_false_elim in H as [Hc Hr].
  rewrite Hc, (IH Hr). reflexivity.
Qed.

Lemma includesChar_app_r (a b : string) (c : ascii) :
  JS.includesChar b c = true -> JS.includesChar (a ++ b) c = true.
Proof.
  intros Hb. induction a as [| x r IH]; [exact Hb |].
  cbn [append JS.includesChar]. rewrite IH. apply orb_true_r.
Qed.

Lemma startsWith_includesChar (s p : string) (c : ascii) :
  JS.startsWith s p = true -> JS.includesChar p c = true -> JS.includesChar s c = true.
Proof.
  revert s. induction p as [| a p IH]; intros s Hs Hp; [discriminate Hp |].
  destruct s as [| b s]; [discriminate Hs |]. cbn in Hs, Hp |- *.
  apply andb_prop in Hs as [Hab Hs]. apply Ascii.eqb_eq in Hab. subst b.
  destruct (Ascii.eqb a c); [reflexivity |]. cbn [orb] in *. exact (IH s Hs Hp).
Qed.

Lemma aroundDoubleColon_colon (seen : bool) (s : string) :
  aroundDoubleColon seen s = true -> JS.includesChar s ":" = true.
Proof.
  revert seen. induction s as [| c r IH]; intros seen H.
  - cbn in H. rewrite andb_false_r in H. discriminate H.
  - cbn [aroundDoubleColon] in H. apply orb_prop in H as [H | H].
    + apply andb_prop in H as [H _]. apply andb_prop in H as [_ H].
      exact (startsWith_includesChar _ "::" ":" H eq_refl).
    + apply andb_prop in H as [_ H]. cbn [JS.includesChar].
      rewrite (IH true H). apply orb_true_r.
Qed.

Lemma ipv6_patterns_have_colon (s : string) :
  ipv6Pattern s = true \/ ipv6ShorthandPattern s = true ->
  JS.includesChar s ":" = true.
Proof.
  intros [H | H].
  - destruct (JS.includesChar s ":") eqn:Hc; [reflexivity |].
    unfold ipv6Pattern in H. rewrite (split_no_separator ":" s Hc) in H.
    cbn in H. discriminate H.
  - unfold ipv6ShorthandPattern in H.
    repeat (apply orb_prop in H as [H | H]).
    + apply String.eqb_eq in H. subst s. reflexivity.
    + apply andb_prop in H as [H _].
      exact (startsWith_includesChar _ "::" ":" H eq_refl).
    + apply andb_prop in H as [H _]. apply endsWith_app in H as [pre ->].
      apply includesChar_app_r. reflexivity.
    + exact (aroundDoubleColon_colon false s H).
Qed.

(** The dispatch by colon is sound for literal hosts: a string that
    [isIPAddress] accepts and that has no colon is a dotted quad of four
    decimal fields, each in 0..255, so the IPv4 classifier is only ever
    asked about well-formed addresses. *)
Theorem isIPAddress_without_colon_is_quad (s : string) :
  isIPAddress s = true -> JS.includesChar s ":" = false ->
  exists a b c d, wellFormedQuad s a b c d.
Proof.
  unfold isIPAddress. intros H Hc.
  destruct (ipv4Pattern s) eqn:H4.
  - unfold ipv4Pattern in H4. unfold wellFormedQuad, ipParts in *.
    destruct (JS.split "." s) as [| f1 [| f2 [| f3 [| f4 [| f5 fs]]]]];
      try discriminate H4.
    cbn [map forallb] in *.
    destruct (JS.parseInt10 f1) as [a |]; [| discriminate H].
    destruct (JS.parseInt10 f2) as [b |]; [| cbn in H; rewrite andb_false_r in H; discriminate H].
    destruct (JS.parseInt10 f3) as [c |];
      [| cbn in H; rewrite !andb_false_r in H; discriminate H].
    destruct (JS.parseInt10 f4) as [d |];
      [| cbn in H; rewrite !andb_false_r in H; discriminate H].
    cbn [inByteRange] in H. rewrite andb_true_r in H.
    rewrite !andb_true_iff, !Z.leb_le in H.
    exists a, b, c, d. split; [reflexivity | lia].
  - exfalso.
    assert (Hcolon : JS.includesChar s ":" = true).
    { apply ipv6_patterns_have_colon.
      destruct (ipv6Pattern s); [left; reflexivity |].
      destruct (ipv6ShorthandPattern s); [right; reflexivity | discriminate H]. }
    congruence.
Qed.

Lemma isIPAddress_without_colon_is_quad_witness :
  isIPAddress "93.184.216.34" = true
  /\ JS.includesChar "93.184.216.34" ":" = false
  /\ exists a b c d, wellFormedQuad "93.184.216.34" a b c d.
Proof.
  split; [reflexivity |]. split; [reflexivity |].
  exact (isIPAddress_without_colon_is_quad "93.184.216.34" eq_refl eq_refl).
Defined.

(** ** Trimming *)

Lemma trimStart_head (s : string) :
  JS.trimStart s = EmptyString
  \/ exists c r, JS.trimStart s = String c r /\ JS.isWhiteSpace c = false.
Proof.
  induction s as [| c r IH]; [left; reflexivity |].
  cbn [JS.trimStart]. destruct (JS.isWhiteSpace c) eqn:Hc; [exact IH |].
  right. exists c, r. split; [reflexivity | exact Hc].
Qed.

Lemma trimEnd_idempotent (s : string) : JS.trimEnd (JS.trimEnd s) = JS.trimEnd s.
Proof.
  induction s as [| c r IH]; [reflexivity |].
  cbn [JS.trimEnd]. destruct (JS.trimEnd r) as [| d r'] eqn:Hr.
  - destruct (JS.isWhiteSpace c) eqn:Hc; [reflexivity |].
    cbn [JS.trimEnd]. rewrite Hc. reflexivity.
  - cbn [JS.trimEnd]. cbn [JS.trimEnd] in IH. rewrite IH. reflexivity.
Qed.

Lemma trimStart_trimEnd (c : ascii) (r : string) :
  JS.isWhiteSpace c = false ->
  JS.trimStart (JS.trimEnd (String c r)) = JS.trimEnd (String c r).
Proof.
  intros Hc. cbn [JS.trimEnd].
  destruct (JS.trimEnd r); rewrite ?Hc; cbn [JS.trimStart]; rewrite Hc; reflexivity.
Qed.

Lemma trim_idempotent (s : string) : JS.trim (JS.trim s) = JS.trim s.
Proof.
  unfold JS.trim.
  destruct (trimStart_head s) as [-> | (c & r & -> & Hc)]; [reflexivity |].
  rewrite (trimStart_trimEnd c r Hc). apply trimEnd_idempotent.
Qed.

(** White space around the URL has no effect: the validator runs the
    same program on a text and on its trimmed form, so the verdict and
    the platform calls are the same. *)
Theorem validateImageUrl_ignores_surrounding_space (U : UrlParser) (url : string) :
  validateImageUrl U (JsString (JS.trim url)) = validateImageUrl U (JsString url).
Proof.
  unfold validateImageUrl. rewrite trim_idempotent. reflexivity.
Qed.

(** * The caller: image URLs of a job *)

Example extractImageURLs_mixed :
  extractImageURLs
    "![a](https://a.example/x.png) ![b]( /rel.png ) ![c](data:image/png;base64,AA) ![d]()"
  = ["https://a.example/x.png"].
Proof. vm_compute. reflexivity. Qed.

Example extractImageURLs_bare_relative :
  extractImageURLs "![f](img.png)" = ["img.png"].
Proof. vm_compute. reflexivity. Qed.

Lemma allChars_trimStart (p : ascii -> bool) (s : string) :
  allChars p s = true -> allChars p (JS.trimStart s) = true.
Proof.
  induction s as [| c r IH]; [reflexivity |].
  intros H. cbn [JS.trimStart]. destruct (JS.isWhiteSpace c); [| exact H].
  cbn in H. apply andb_prop in H as [_ H]. exact (IH H).
Qed.

Lemma allChars_trimEnd (p : ascii -> bool) (s : string) :
  allChars p s = true -> allChars p (JS.trimEnd s) = true.
Proof.
  induction s as [| c r IH]; [reflexivity |].
  intros H. cbn in H. apply andb_prop in H as [Hc Hr]. specialize (IH Hr).
  cbn [JS.trimEnd]. destruct (JS.trimEnd r) as [| d r'].
  - destruct (JS.isWhiteSpace c); cbn; rewrite ?Hc; reflexivity.
  - cbn [allChars] in *. rewrite Hc, IH. reflexivity.
Qed.

Lemma allChars_trim (p : ascii -> bool) (s : string) :
  allChars p s = true -> allChars p (JS.trim s) = true.
Proof. intros H. apply allChars_trimEnd, allChars_trimStart, H. Qed.

Lemma length_app_string (a b : string) :
  String.length (a ++ b) = (String.length a + String.length b)%nat.
Proof. induction a as [| c r IH]; cbn; [| rewrite IH]; reflexivity. Qed.

Lemma lazyUntilParen_capture (s capture rest : string) :
  lazyUntilParen s = Some (capture, rest) ->
  allChars captureChar capture = true /\ s = capture ++ ")" ++ rest.
Proof.
  revert capture. induction s as [| c r IH]; intros capture; cbn [lazyUntilParen];
    [discriminate |].
  destruct (Ascii.eqb_spec c ")") as [-> | Hc].
  - intros [= <- <-]. split; reflexivity.
  - destruct (isLineTerminator c) eqn:Hl; [discriminate |].
    destruct (lazyUntilParen r) as [[cap' rest'] |]; [| discriminate].
    intros [= <- <-]. destruct (IH cap' eq_refl) as [Hall ->].
    split; [| reflexivity]. cbn [allChars]. rewrite Hall.
    unfold captureChar. rewrite Hl. destruct (Ascii.eqb_spec c ")"); [contradiction |].
    reflexivity.
Qed.

Lemma lazyUntilBracketParen_capture (s capture rest : string) :
  lazyUntilBracketParen s = Some (capture, rest) ->
  allChars captureChar capture = true
  /\ (String.length rest < String.length s)%nat.
Proof.
  induction s as [| c r IH]; cbn [lazyUntilBracketParen]; [discriminate |].
  set (here := match String c r with
               | String "]" (String "(" r') => lazyUntilParen r'
               | _ => None
               end).
  assert (Hhere : forall m, here = Some m ->
                            allChars captureChar (fst m) = true
                            /\ (String.length (snd m) < String.length (String c r))%nat).
  { intros [cap rst] Hm. subst here.
    destruct r as [| c2 r']; [destruct c as [[] [] [] [] [] [] [] []]; discriminate Hm |].
    assert (Hm' : lazyUntilParen r' = Some (cap, rst)).
    { destruct c as [[] [] [] [] [] [] [] []]; try discriminate Hm;
        destruct c2 as [[] [] [] [] [] [] [] []]; try discriminate Hm; exact Hm. }
    destruct (lazyUntilParen_capture _ _ _ Hm') as [Hall ->].
    split; [exact Hall |]. cbn [fst snd String.length].
    rewrite !length_app_string. cbn. lia. }
  destruct here as [m |].
  - intros [= ->]. exact (Hhere _ eq_refl).
  - destruct (isLineTerminator c); [discriminate |].
    intros H. destruct (IH H) as [Hall Hlen]. split; [exact Hall |]. cbn. lia.
Qed.

Lemma IMAGE_URL_PATTERN_capture (s capture rest : string) :
  IMAGE_URL_PATTERN s = Some (capture, rest) ->
  allChars captureChar capture = true.
Proof.
  unfold IMAGE_URL_PATTERN. intros H.
  destruct s as [| c [| c2 r]];
    [discriminate H | destruct c as [[] [] [] [] [] [] [] []]; discriminate H |].
  assert (H' : lazyUntilBracketParen r = Some (capture, rest)).
  { destruct c as [[] [] [] [] [] [] [] []]; try discriminate H;
      destruct c2 as [[] [] [] [] [] [] [] []]; try discriminate H; exact H. }
  exact (proj1 (lazyUntilBracketParen_capture _ _ _ H')).
Qed.

Lemma execAll_captures (s : string) :
  forall behind capture,
    In capture (execAll behind s) -> allChars captureChar capture = true.
Proof.
  induction s as [| c r IH]; intros behind capture; cbn [execAll]; [intros [] |].
  destruct behind as [| k]; [| apply IH].
  destruct (IMAGE_URL_PATTERN (String c r)) as [[cap rest] |] eqn:Hm; [| apply IH].
  intros [<- | Hin]; [exact (IMAGE_URL_PATTERN_capture _ _ _ Hm) | exact (IH _ _ Hin)].
Qed.

Lemma collectUrls_kept (captures : list string) (url : string) :
  In url (collectUrls captures) ->
  exists capture,
    In capture captures /\ url = JS.trim capture
    /\ JS.startsWith url "data:" = false /\ JS.startsWith url "/" = false
    /\ JS.startsWith url "./" = false /\ url <> EmptyString.
Proof.
  induction captures as [| capture rest IH]; cbn [collectUrls]; [intros [] |].
  destruct (JS.startsWith (JS.trim capture) "data:") eqn:H1; cbn [orb].
  { intros H. destruct (IH H) as (x & Hx & Hrest). exists x. split; [right |]; assumption. }
  destruct (JS.startsWith (JS.trim capture) "/") eqn:H2; cbn [orb].
  { intros H. destruct (IH H) as (x & Hx & Hrest). exists x. split; [right |]; assumption. }
  destruct (JS.startsWith (JS.trim capture) "./") eqn:H3; cbn [orb].
  { intros H. destruct (IH H) as (x & Hx & Hrest). exists x. split; [right |]; assumption. }
  destruct (Nat.eqb_spec (String.length (JS.trim capture)) 0) as [H0 | H0].
  { intros H. destruct (IH H) as (x & Hx & Hrest). exists x. split; [right |]; assumption. }
  intros [<- | H].
  - exists capture. repeat split; try assumption; [left; reflexivity |].
    intros E. rewrite E in H0. apply H0. reflexivity.
  - destruct (IH H) as (x & Hx & Hrest). exists x. split; [right |]; assumption.
Qed.

(** What the extractor hands to the validator: every extracted URL is
    non-empty and already trimmed, holds no closing parenthesis and no
    line break, and is neither a [data:] URI nor a path that begins with
    [/] or [./]. *)
Theorem extractImageURLs_urls (markdown url : string) :
  In url (extractImageURLs markdown) ->
  url <> EmptyString
  /\ JS.trim url = url
  /\ allChars captureChar url = true
  /\ JS.startsWith url "data:" = false
  /\ JS.startsWith url "/" = false
  /\ JS.startsWith url "./" = false.
Proof.
  unfold extractImageURLs. intros H.
  destruct (collectUrls_kept _ _ H) as (capture & Hin & -> & H1 & H2 & H3 & Hne).
  repeat split; try assumption.
  - apply trim_idempotent.
  - apply allChars_trim. exact (execAll_captures markdown 0 capture Hin).
Qed.

Lemma extractImageURLs_urls_witness :
  In "https://a.example/x.png" (extractImageURLs "![logo]( https://a.example/x.png )")
  /\ JS.trim "https://a.example/x.png" = "https://a.example/x.png".
Proof.
  assert (H : In "https://a.example/x.png"
                (extractImageURLs "![logo]( https://a.example/x.png )"))
    by (vm_compute; left; reflexivity).
  split; [exact H |].
  exact (proj1 (proj2 (extractImageURLs_urls _ _ H))).
Defined.

Lemma IMAGE_URL_PATTERN_inv (s : string) (m : string * string) :
  IMAGE_URL_PATTERN s = Some m ->
  exists r, s = String "!" (String "[" r) /\ lazyUntilBracketParen r = Some m.
Proof.
  unfold IMAGE_URL_PATTERN. intros H.
  destruct s as [| c [| c2 r]];
    [discriminate H | destruct c as [[] [] [] [] [] [] [] []]; discriminate H |].
  destruct c as [[] [] [] [] [] [] [] []]; try discriminate H;
    destruct c2 as [[] [] [] [] [] [] [] []]; try discriminate H.
  exists r. split; [reflexivity | exact H].
Qed.

Lemma IMAGE_URL_PATTERN_needs_bang_bracket (s : string) :
  JS.startsWith s "![" = false -> IMAGE_URL_PATTERN s = None.
Proof.
  intros H. destruct (IMAGE_URL_PATTERN s) as [m |] eqn:Hm; [| reflexivity].
  apply IMAGE_URL_PATTERN_inv in Hm as (r & -> & _). discriminate H.
Qed.

Lemma execAll_behind_all (s : string) :
  forall behind, (String.length s <= behind)%nat -> execAll behind s = [].
Proof.
  induction s as [| c r IH]; intros behind H; [reflexivity |].
  cbn [execAll]. destruct behind as [| k]; [cbn in H; lia |].
  apply IH. cbn in H. lia.
Qed.

Lemma execAll_no_image (s : string) :
  JS.includes s "![" = false -> forall behind, execAll behind s = [].
Proof.
  induction s as [| c r IH]; intros H behind; [reflexivity |].
  cbn [JS.includes] in H. apply orb_false_elim in H as [Hs Hr].
  cbn [execAll]. destruct behind as [| k]; [| exact (IH Hr k)].
  rewrite (IMAGE_URL_PATTERN_needs_bang_bracket _ Hs). exact (IH Hr 0%nat).
Qed.

(** A markdown text without [![] has no image URL: nothing of it is
    handed to the validator. *)
Theorem extractImageURLs_no_image (markdown : string) :
  JS.includes markdown "![" = false -> extractImageURLs markdown = [].
Proof.
  intros H. unfold extractImageURLs. rewrite (execAll_no_image markdown H 0%nat).
  reflexivity.
Qed.

Lemma extractImageURLs_no_image_witness :
  JS.includes "# Title (see [docs](https://a.example/))" "![" = false
  /\ extractImageURLs "# Title (see [docs](https://a.example/))" = [].
Proof.
  split; [reflexivity |].
  exact (extractImageURLs_no_image "# Title (see [docs](https://a.example/))" eq_refl).
Defined.

Lemma lazyUntilParen_exact (url rest : string) :
  allChars captureChar url = true ->
  lazyUntilParen (url ++ ")" ++ rest) = Some (url, rest).
Proof.
  induction url as [| c r IH]; intros H; [reflexivity |].
  cbn in H. apply andb_prop in H as [Hc Hr]. unfold captureChar in Hc.
  apply andb_prop in Hc as [Hp Hl].
  apply negb_true_iff in Hp. apply negb_true_iff in Hl.
  change (String c r ++ ")" ++ rest) with (String c (r ++ ")" ++ rest)).
  cbn [lazyUntilParen]. rewrite Hp, Hl, (IH Hr). reflexivity.
Qed.

Lemma bracket_paren_here_none (c : ascii) (r : string) :
  Ascii.eqb c "]" = false ->
  match String c r with
  | String "]" (String "(" r') => lazyUntilParen r'
  | _ => None
  end = None.
Proof.
  intros H. destruct c as [[] [] [] [] [] [] [] []]; try reflexivity.
  discriminate H.
Qed.

Lemma lazyUntilBracketParen_exact (alt url rest : string) :
  allChars altChar alt = true ->
  allChars captureChar url = true ->
  lazyUntilBracketParen (alt ++ "](" ++ url ++ ")" ++ rest) = Some (url, rest).
Proof.
  intros Ha Hu. induction alt as [| c r IH].
  - change (EmptyString ++ "](" ++ url ++ ")" ++ rest)
      with (String "]" (String "(" (url ++ ")" ++ rest))).
    cbn [lazyUntilBracketParen]. rewrite (lazyUntilParen_exact url rest Hu).
    reflexivity.
  - cbn in Ha. apply andb_prop in Ha as [Hc Hr]. unfold altChar in Hc.
    apply andb_prop in Hc as [Hb Hl].
    apply negb_true_iff in Hb. apply negb_true_iff in Hl.
    change ((String c r) ++ "](" ++ url ++ ")" ++ rest)
      with (String c (r ++ "](" ++ url ++ ")" ++ rest)).
    cbn [lazyUntilBracketParen]. rewrite (bracket_paren_here_none c _ Hb), Hl.
    exact (IH Hr).
Qed.

Lemma execAll_before_image (pre t : string) :
  JS.includes pre "![" = false ->
  execAll 0 (pre ++ "![" ++ t) = execAll 0 ("![" ++ t).
Proof.
  induction pre as [| c r IH]; intros H; [reflexivity |].
  cbn [JS.includes] in H. apply orb_false_elim in H as [Hs Hr].
  change ((String c r) ++ "![" ++ t) with (String c (r ++ "![" ++ t)).
  cbn [execAll]. rewrite IMAGE_URL_PATTERN_needs_bang_bracket; [exact (IH Hr) |].
  destruct r as [| c2 r'].
  - cbn [append JS.startsWith]. change (Ascii.eqb "[" "!") with false.
    cbn [andb]. apply andb_false_r.
  - exact Hs.
Qed.

Lemma append_assoc (a b c : string) : (a ++ b) ++ c = a ++ (b ++ c).
Proof. induction a as [| x r IH]; cbn; [| rewrite IH]; reflexivity. Qed.

Lemma execAll_match (c : ascii) (r capture rest : string) :
  IMAGE_URL_PATTERN (String c r) = Some (capture, rest) ->
  execAll 0 (String c r)
  = capture :: execAll (String.length r - String.length rest) r.
Proof. intros H. cbn [execAll]. rewrite H. reflexivity. Qed.

Lemma execAll_behind_body (body post : string) :
  JS.includes post "![" = false ->
  execAll (String.length body) (body ++ post) = [].
Proof.
  intros H. induction body as [| c r IH]; [exact (execAll_no_image post H 0%nat) |].
  exact IH.
Qed.

(** The extractor finds the image: in a text with one image
    [![alt](url)], where the alternative text holds no closing bracket
    and neither part a line break, and the URL holds no closing
    parenthesis, exactly the trimmed URL is extracted, provided it is not
    empty, a [data:] URI or a path beginning with [/] or [./]. *)
Theorem extractImageURLs_single_image (pre alt url post : string) :
  JS.includes pre "![" = false ->
  JS.includes post "![" = false ->
  allChars altChar alt = true ->
  allChars captureChar url = true ->
  JS.trim url <> EmptyString ->
  JS.startsWith (JS.trim url) "data:" = false ->
  JS.startsWith (JS.trim url) "/" = false ->
  JS.startsWith (JS.trim url) "./" = false ->
  extractImageURLs (pre ++ "![" ++ alt ++ "](" ++ url ++ ")" ++ post) = [JS.trim url].
Proof.
  intros Hpre Hpost Ha Hu Hne H1 H2 H3. unfold extractImageURLs.
  rewrite (execAll_before_image pre _ Hpre).
  set (body := "[" ++ alt ++ "](" ++ url ++ ")").
  assert (Hbody : String "[" (alt ++ "](" ++ url ++ ")" ++ post) = body ++ post).
  { unfold body. rewrite !append_assoc. reflexivity. }
  change ("![" ++ alt ++ "](" ++ url ++ ")" ++ post)
    with (String "!" (String "[" (alt ++ "](" ++ url ++ ")" ++ post))).
  rewrite (execAll_match "!" _ url post)
    by exact (lazyUntilBracketParen_exact alt url post Ha Hu).
  rewrite Hbody.
  replace (String.length (body ++ post) - String.length post)%nat
    with (String.length body) by (rewrite length_app_string; lia).
  assert (Hrest : execAll (String.length body) (body ++ post) = [])
    by (apply execAll_behind_body, Hpost).
  rewrite Hrest. cbn [collectUrls]. rewrite H1, H2, H3. cbn [orb].
  destruct (Nat.eqb_spec (String.length (JS.trim url)) 0) as [H0 | _]; [| reflexivity].
  exfalso. apply Hne. destruct (JS.trim url); [reflexivity | discriminate H0].
Qed.

Lemma extractImageURLs_single_image_witness :
  extractImageURLs ("# Deck " ++ "![" ++ "logo" ++ "](" ++ " https://a.example/x.png "
                    ++ ")" ++ " and text")
  = ["https://a.example/x.png"].
Proof.
  apply (extractImageURLs_single_image "# Deck " "logo" " https://a.example/x.png "
           " and text"); try reflexivity.
  discriminate.
Defined.

Lemma run_validateJobImages_cons (U : UrlParser) (net : Network) (url : string)
  (rest : list string) (v : ImageValidationResult) :
  outcome net (validateImageUrl U (JsString url)) = Fulfilled v ->
  run net (validateJobImages U (url :: rest)) =
    if negb (valid v) then
      (Fulfilled (Some (imageErrorMessage url (error v))),
       (trace net (validateImageUrl U (JsString url))
        ++ [EvConsoleError [("[JobProcessor] " ++ imageErrorMessage url (error v))%string]])%list)
    else
      let '(o, t) := run net (validateJobImages U rest) in
      (o, (trace net (validateImageUrl U (JsString url)) ++ t)%list).
Proof.
  intros Ho. cbn [validateJobImages]. rewrite run_bind. unfold outcome, trace in *.
  destruct (run net (validateImageUrl U (JsString url))) as [o t]. cbn [fst snd] in *.
  subst o. destruct (negb (valid v)); [reflexivity |].
  destruct (run net (validateJobImages U rest)). reflexivity.
Qed.

(** The image step of a job stops at the first URL that is rejected:
    when the URLs before it are accepted, the job fails with the message
    that names this URL and its reason, the rejection is logged, and the
    URLs after it are never validated (no platform call is made for
    them). When every URL is accepted the step passes. *)
Theorem validateJobImages_fail_fast (U : UrlParser) (net : Network) :
  (forall urls,
      Forall (acceptedOn U net) urls ->
      run net (validateJobImages U urls) = (Fulfilled None, tracesOf U net urls))
  /\ (forall before bad after v,
         Forall (acceptedOn U net) before ->
         outcome net (validateImageUrl U (JsString bad)) = Fulfilled v ->
         valid v = false ->
         run net (validateJobImages U (before ++ bad :: after))
         = (Fulfilled (Some (imageErrorMessage bad (error v))),
            (tracesOf U net (before ++ [bad])
             ++ [EvConsoleError [("[JobProcessor] " ++ imageErrorMessage bad (error v))%string]])%list)).
Proof.
  split.
  - intros urls Hall. induction Hall as [| url rest Hacc _ IH]; [reflexivity |].
    rewrite (run_validateJobImages_cons U net url rest accept Hacc). cbn [valid accept negb].
    rewrite IH. reflexivity.
  - intros before bad after v Hall Hbad Hinv.
    induction Hall as [| url rest Hacc _ IH].
    + cbn [app]. rewrite (run_validateJobImages_cons U net bad after v Hbad), Hinv.
      cbn [negb tracesOf]. rewrite app_nil_r. reflexivity.
    + cbn [app]. rewrite (run_validateJobImages_cons U net url _ accept Hacc).
      cbn [valid accept negb]. rewrite IH. cbn [tracesOf app].
      rewrite <- app_assoc. reflexivity.
Qed.

Lemma validateJobImages_fail_fast_witness :
  let net := Scenario.redirecting [] in
  Forall (acceptedOn Scenario.plainParser net) ["https://a.example/x.png"]
  /\ outcome net (validateImageUrl Scenario.plainParser (JsString "http://b.example/y.png"))
     = Fulfilled (reject "Only HTTPS protocol is allowed for image URLs")
  /\ outcome net
       (validateJobImages Scenario.plainParser
          (["https://a.example/x.png"] ++ "http://b.example/y.png" :: ["https://c.example/z.png"]))
     = Fulfilled
         (Some (imageErrorMessage "http://b.example/y.png"
                  (Some "Only HTTPS protocol is allowed for image URLs"))).
Proof.
  intros net.
  assert (Hall : Forall (acceptedOn Scenario.plainParser net) ["https://a.example/x.png"])
    by (repeat constructor; vm_compute; reflexivity).
  assert (Hbad : outcome net
                   (validateImageUrl Scenario.plainParser (JsString "http://b.example/y.png"))
                 = Fulfilled (reject "Only HTTPS protocol is allowed for image URLs"))
    by (vm_compute; reflexivity).
  split; [exact Hall |]. split; [exact Hbad |].
  unfold outcome.
  rewrite (proj2 (validateJobImages_fail_fast Scenario.plainParser net)
             ["https://a.example/x.png"] "http://b.example/y.png"
             ["https://c.example/z.png"] _ Hall Hbad eq_refl).
  reflexivity.
Defined.

(** * Further properties: host names under a blocked suffix *)

Lemma substring_after_prefix (a p : string) :
  substring (String.length a) (String.length p) (a ++ p) = p.
Proof.
  induction a as [| c r IH]; [apply substring_full | exact IH].
Qed.

Lemma endsWith_suffix (a p : string) : JS.endsWith (a ++ p) p = true.
Proof.
  unfold JS.endsWith. rewrite length_app_string.
  replace (String.length a + String.length p - String.length p)%nat
    with (String.length a) by lia.
  rewrite substring_after_prefix, String.eqb_refl.
  destruct (Nat.leb_spec (String.length p) (String.length a + String.length p));
    [reflexivity | lia].
Qed.

Lemma anyPattern_in (ps : list HostPattern) (p : HostPattern) (s : string) :
  In p ps -> pattern_test p s = true -> anyPattern ps s = true.
Proof.
  induction ps as [| q ps IH]; intros Hin Ht; [destruct Hin |].
  cbn [anyPattern]. destruct Hin as [<- | Hin].
  - rewrite Ht. reflexivity.
  - destruct (pattern_test q s); [reflexivity | exact (IH Hin Ht)].
Qed.

(** Every name under a blocked suffix is blocked: whatever text, in
    whatever letter case, a host name is written in, if its lower-case
    form ends with a suffix of the table ([.local], [.internal],
    [.svc.cluster.local], ...), the host name is refused. *)
Theorem isBlockedHostname_under_suffix (dotted label h : string) :
  In (Suffix dotted) BLOCKED_HOSTNAME_PATTERNS ->
  JS.toLowerCase h = label ++ dotted ->
  isBlockedHostname h = true.
Proof.
  intros Hin Hlow. unfold isBlockedHostname. rewrite anyPattern_lower.
  apply (anyPattern_in _ (Suffix dotted) _ Hin). cbn [pattern_test].
  rewrite Hlow. apply endsWith_suffix.
Qed.

Lemma isBlockedHostname_under_suffix_witness :
  In (Suffix ".svc.cluster.local") BLOCKED_HOSTNAME_PATTERNS
  /\ JS.toLowerCase "Redis.Default.SVC.Cluster.Local"
     = "redis.default" ++ ".svc.cluster.local"
  /\ isBlockedHostname "Redis.Default.SVC.Cluster.Local" = true.
Proof.
  assert (H : In (Suffix ".svc.cluster.local") BLOCKED_HOSTNAME_PATTERNS)
    by (unfold BLOCKED_HOSTNAME_PATTERNS; cbn; tauto).
  split; [exact H |]. split; [reflexivity |].
  exact (isBlockedHostname_under_suffix ".svc.cluster.local" "redis.default"
           "Redis.Default.SVC.Cluster.Local" H eq_refl).
Defined.

(** * Further properties: what reaches the resolver *)

Lemma single_lookups_checked (U : UrlParser) (net : Network) (u : string) :
  lookupsChecked U (trace net (validateSingleUrl U u)).
Proof.
  unfold lookupsChecked, trace, validateSingleUrl.
  destruct (Nat.ltb_spec MAX_URL_LENGTH (String.length u)); [intros ? ? [] |].
  destruct (newURL U u) as [parsedUrl |] eqn:Hp; [| intros ? ? []].
  destruct (String.eqb_spec (protocol parsedUrl) "https:") as [Hproto | _];
    cbn [negb]; [| intros ? ? []].
  destruct (isBlockedHostname (hostname parsedUrl)) eqn:Hhost; [intros ? ? [] |].
  destruct (isIPAddress (hostname parsedUrl)) eqn:Hip.
  - destruct (JS.includesChar (hostname parsedUrl) ":");
      [destruct (isBlockedIPv6 (hostname parsedUrl))
      | destruct (isBlockedIP (hostname parsedUrl))]; intros ? ? [].
  - unfold resolveHostname. cbn [tryCatch bind run].
    intros host all Hin.
    assert (Hev : EvLookup (hostname parsedUrl) true = EvLookup host all).
    { destruct (dnsLookup net (hostname parsedUrl)); cbn in Hin;
        destruct Hin as [Hin | []]; exact Hin. }
    injection Hev as <- <-. split; [reflexivity |].
    exists u, parsedUrl. repeat split; (lia || assumption).
Qed.

Lemma lookupsChecked_app (U : UrlParser) (a b : list Event) :
  lookupsChecked U a -> lookupsChecked U b -> lookupsChecked U (a ++ b).
Proof.
  intros Ha Hb host all Hin. apply in_app_or in Hin as [Hin | Hin]; eauto.
Qed.

Lemma probe_no_lookup (U : UrlParser) (net : Network) (u : string) :
  lookupsChecked U (trace net (checkForRedirect U u)).
Proof.
  intros host all Hin. pose proof (checkForRedirect_trace U net u) as Ht.
  destruct (newURL U u); [destruct Ht as [Ht | Ht] |]; rewrite Ht in Hin; cbn in Hin;
    intuition discriminate.
Qed.

Lemma chain_lookups_checked (U : UrlParser) (net : Network) (k : nat) :
  forall (c : nat) (u : string) (visited : list string),
    (c + k = MAX_REDIRECTS)%nat ->
    lookupsChecked U (trace net (followAndValidateRedirects U u c visited)).
Proof.
  induction k as [| k IH]; intros c u visited Hc; unfold trace.
  all: destruct (Set_has visited u) eqn:Hv;
    [ rewrite chain_loop by (lia || assumption); intros ? ? []
    | rewrite chain_run by (lia || assumption) ].
  all: pose proof (single_lookups_checked U net u) as H1; unfold trace in H1;
    destruct (run net (validateSingleUrl U u)) as [[r | e] t1]; cbn [snd] in *;
    [| exact H1];
    destruct (negb (valid r)); [exact H1 |].
  - destruct (Nat.ltb_spec c MAX_REDIRECTS); [lia | exact H1].
  - destruct (Nat.ltb_spec c MAX_REDIRECTS); [| lia].
    pose proof (probe_no_lookup U net u) as H2. unfold trace in H2.
    destruct (run net (checkForRedirect U u)) as [[rr | e] t2]; cbn [snd] in *;
      [| apply lookupsChecked_app; assumption].
    destruct (hasRedirect rr && truthy (redirectUrl rr)), (redirectUrl rr) as [target |];
      try (apply lookupsChecked_app; assumption).
    specialize (IH (S c) target (Set_add visited u) ltac:(lia)). unfold trace in IH.
    destruct (run net (followAndValidateRedirects U target (S c) (Set_add visited u)))
      as [o t3]. cbn [snd] in *. repeat apply lookupsChecked_app; assumption.
Qed.

(** The resolver is only asked about hosts that have passed the earlier
    steps: every DNS lookup of a run asks for all addresses of the host
    of a URL that is short enough, parses, uses https and has a host
    outside the blocked patterns, and that host is one [isIPAddress]
    does not accept. This does not keep every IP literal from the
    resolver: a bracketed IPv6 host such as [[::1]] is not accepted by
    [isIPAddress] and is looked up. *)
Theorem validateImageUrl_lookups_checked (U : UrlParser) (net : Network) (x : JsValue) :
  lookupsChecked U (trace net (validateImageUrl U x)).
Proof.
  destruct (validateImageUrl_trace U net x) as [-> | (url & _ & Ht)];
    [intros ? ? [] |].
  pose proof (chain_lookups_checked U net MAX_REDIRECTS 0 (JS.trim url) [] eq_refl) as Hc.
  destruct Ht as [-> | [args ->]]; [exact Hc |].
  apply lookupsChecked_app; [exact Hc |].
  intros ? ? [Hin | []]. discriminate Hin.
Qed.

(** * Further properties: redirects that are followed *)

Lemma last_cons_default (v : string) (rest : list string) (u : string) :
  last (v :: rest) u = last rest v.
Proof.
  revert v u. induction rest as [| s rest IH]; intros v u; [reflexivity |].
  change (last (v :: s :: rest) u) with (last (s :: rest) u).
  rewrite (IH s u), (IH s v). reflexivity.
Qed.

(** From any hop: a chain through fresh, distinct URLs that fits in the
    hops that remain is accepted. *)
Lemma chain_followed (U : UrlParser) (net : Network) (rest : list string) :
  forall (u : string) (c : nat) (visited : list string),
    redirectChain U net u rest ->
    validates U net (last rest u) ->
    (c + List.length rest <= MAX_REDIRECTS)%nat ->
    ((c + List.length rest < MAX_REDIRECTS)%nat -> staysAt U net (last rest u)) ->
    NoDup (u :: rest) ->
    (forall x, In x (u :: rest) -> ~ In x visited) ->
    outcome net (followAndValidateRedirects U u c visited) = Fulfilled accept.
Proof.
  induction rest as [| v rest IH]; intros u c visited Hchain Hlast Hc Hstay Hnd Hfresh.
  - cbn [last List.length] in *.
    assert (Hv : Set_has visited u = false).
    { destruct (Set_has visited u) eqn:E; [| reflexivity].
      apply Set_has_In in E. exfalso. exact (Hfresh u (or_introl eq_refl) E). }
    unfold outcome. rewrite chain_run by (lia || assumption).
    unfold validates, outcome in Hlast.
    destruct (run net (validateSingleUrl U u)) as [o t1]. cbn [fst] in Hlast. subst o.
    cbn [valid accept negb].
    destruct (Nat.ltb_spec c MAX_REDIRECTS) as [Hlt | Hge]; [| reflexivity].
    specialize (Hstay ltac:(lia)). unfold staysAt, outcome in Hstay.
    destruct (run net (checkForRedirect U u)) as [o t2]. cbn [fst] in Hstay. subst o.
    reflexivity.
  - destruct Hchain as (Hval & Hred & Hchain). cbn [List.length] in Hc, Hstay.
    assert (Hv : Set_has visited u = false).
    { destruct (Set_has visited u) eqn:E; [| reflexivity].
      apply Set_has_In in E. exfalso. exact (Hfresh u (or_introl eq_refl) E). }
    rewrite (chain_step U net u v c visited) by (lia || assumption).
    inversion Hnd as [| ? ? Hnotin Hnd']; subst.
    rewrite (last_cons_default v rest u) in Hlast, Hstay.
    apply IH; try assumption.
    + lia.
    + intros Hlt. apply Hstay. lia.
    + intros x Hx Hin. apply Set_add_In in Hin as [Hin | ->].
      * exact (Hfresh x (or_intror Hx) Hin).
      * exact (Hnotin Hx).
Qed.

(** A chain of redirects through distinct URLs is followed to its end:
    when every URL on the way validates and redirects to the next, the
    last URL validates, and the chain has at most [MAX_REDIRECTS]
    redirects and either ends at a URL whose probe reports no redirect
    or is exactly [MAX_REDIRECTS] long (the last URL is then not
    probed), the verdict is acceptance. *)
Theorem validateImageUrl_follows_redirects
  (U : UrlParser) (net : Network) (url : string) (rest : list string) :
  passesPreValidation url = true ->
  redirectChain U net (JS.trim url) rest ->
  validates U net (last rest (JS.trim url)) ->
  (List.length rest <= MAX_REDIRECTS)%nat ->
  ((List.length rest < MAX_REDIRECTS)%nat -> staysAt U net (last rest (JS.trim url))) ->
  NoDup (JS.trim url :: rest) ->
  outcome net (validateImageUrl U (JsString url)) = Fulfilled accept.
Proof.
  intros Hp Hchain Hlast Hlen Hstay Hnd.
  rewrite (validateImageUrl_chain U url Hp), outcome_tryCatch.
  rewrite (chain_followed U net rest (JS.trim url) 0 []); auto.
Qed.

Lemma validateImageUrl_follows_redirects_witness :
  let net := Scenario.redirecting [("a.example/x.png", "https://cdn.example/x.png")] in
  redirectChain Scenario.plainParser net (JS.trim "https://a.example/x.png")
    ["https://cdn.example/x.png"]
  /\ outcome net (validateImageUrl Scenario.plainParser (JsString "https://a.example/x.png"))
     = Fulfilled accept.
Proof.
  intros net.
  assert (Hc : redirectChain Scenario.plainParser net (JS.trim "https://a.example/x.png")
                 ["https://cdn.example/x.png"]).
  { split; [vm_compute; reflexivity |]. split; [| exact I].
    split; [discriminate | vm_compute; reflexivity]. }
  split; [exact Hc |].
  apply (validateImageUrl_follows_redirects Scenario.plainParser net
           "https://a.example/x.png" ["https://cdn.example/x.png"]).
  - reflexivity.
  - exact Hc.
  - vm_compute. reflexivity.
  - unfold MAX_REDIRECTS. cbn [List.length]. lia.
  - intros _. vm_compute. reflexivity.
  - repeat constructor; cbn; intuition discriminate.
Defined.
